(** * rxremote: the per-connection subscription multiplexer

    A shallow embedding of [src/server/onWebSocketConnection.js].  The
    handler closes over two mutable variables ([sessionId] and
    [subscriptions]) and talks to four collaborators (the socket, the log
    subject, the event subject and the catalog of observables).  The
    embedding threads the mutable part as an explicit [state] and records
    every call on a collaborator in a trace of [effect]s; a JavaScript
    exception that leaves a handler is the completion [Thrown]. *)

From stdpp Require Import gmap strings list fin_maps.
From Stdlib Require Import ZArith DecimalString.

Local Open Scope string_scope.
Local Set Warnings "-register-all".

(** ** JavaScript values *)

(** Property names every ordinary object inherits from [Object.prototype]. *)
Definition Object_prototype_names : list string :=
  [ "constructor"; "__defineGetter__"; "__defineSetter__"; "hasOwnProperty";
    "__lookupGetter__"; "__lookupSetter__"; "isPrototypeOf";
    "propertyIsEnumerable"; "toString"; "valueOf"; "__proto__";
    "toLocaleString" ].

Definition Object_prototype_has (key : string) : bool :=
  existsb (String.eqb key) Object_prototype_names.

(** JavaScript numbers are IEEE doubles.  The handler only tests them for
    being numbers, converts them to property keys and writes one literal,
    so they are kept behind an interface: [NumberToString] is
    [Number::toString], whose results (digits, a sign, a point, an exponent,
    [NaN], [Infinity]) never spell a member of [Object.prototype]. *)
Class JSNumber := {
  number : Type;
  number_lit : Z → number;
  number_truthy : number → bool;
  NumberToString : number → string;
  NumberToString_own : ∀ n, Object_prototype_has (NumberToString n) = false
}.

Section Multiplexer.
Context `{JS : JSNumber}.

(** What [JSON.parse] can produce, plus [undefined] for absent properties.
    A [VObject] lists the own properties of a plain object. *)
Inductive value :=
  | VUndefined
  | VNull
  | VBool (b : bool)
  | VNumber (n : number)
  | VString (s : string)
  | VArray (items : list value)
  | VObject (props : list (string * value)).

Inductive type_tag :=
  | T_undefined | T_object | T_boolean | T_number | T_string.

Definition typeof (v : value) : type_tag :=
  match v with
  | VUndefined => T_undefined
  | VNull | VArray _ | VObject _ => T_object
  | VBool _ => T_boolean
  | VNumber _ => T_number
  | VString _ => T_string
  end.

Definition is_number (v : value) : bool :=
  match typeof v with T_number => true | _ => false end.

Definition is_string (v : value) : bool :=
  match typeof v with T_string => true | _ => false end.

(** [v == null] *)
Definition is_nullish (v : value) : bool :=
  match v with VUndefined | VNull => true | _ => false end.

Definition truthy (v : value) : bool :=
  match v with
  | VUndefined | VNull => false
  | VBool b => b
  | VNumber n => number_truthy n
  | VString s => negb (String.eqb s "")
  | VArray _ | VObject _ => true
  end.

Fixpoint own_property (props : list (string * value)) (key : string)
  : option value :=
  match props with
  | [] => None
  | (k, v) :: rest => if String.eqb k key then Some v else own_property rest key
  end.

(** [v.key] for the names this program reads ([type], [sessionId],
    [offset], [subscriptionId], [name]): no built-in prototype defines
    them, so only own properties of plain objects answer.  [None] is the
    [TypeError] of reading a property of [null] or [undefined]. *)
Definition Get (v : value) (key : string) : option value :=
  match v with
  | VUndefined | VNull => None
  | VObject props => Some (default VUndefined (own_property props key))
  | _ => Some VUndefined
  end.

(** [ToString], which for these values is also [ToPropertyKey] and the
    conversion done by [+] with a string.  Arrays go through
    [Array.prototype.join].  A plain object answers through the inherited
    [Object.prototype.toString] unless it has an own [toString] property:
    parsed data is never callable, the inherited [valueOf] returns the
    object itself, and [OrdinaryToPrimitive] ends in a [TypeError] ([None]). *)
Fixpoint ToString (v : value) : option string :=
  match v with
  | VUndefined => Some "undefined"
  | VNull => Some "null"
  | VBool true => Some "true"
  | VBool false => Some "false"
  | VNumber n => Some (NumberToString n)
  | VString s => Some s
  | VArray items =>
      (fix join (l : list value) : option string :=
         match l with
         | [] => Some ""
         | x :: rest =>
             match (if is_nullish x then Some "" else ToString x) with
             | None => None
             | Some sx =>
                 match rest with
                 | [] => Some sx
                 | _ => match join rest with
                        | None => None
                        | Some sr => Some (sx +:+ "," +:+ sr)
                        end
                 end
             end
         end) items
  | VObject props =>
      match own_property props "toString" with
      | Some _ => None
      | None => Some "[object Object]"
      end
  end.

Definition ToPropertyKey : value → option string := ToString.

(** ** Collaborators *)

(** What an observable says to its observer. *)
Inductive notification :=
  | N_next (batch : value)
  | N_error (err : value)
  | N_complete.

Definition is_terminal (n : notification) : bool :=
  match n with N_next _ => false | _ => true end.

(** What a catalog factory hands back: a plain data value, a primitive
    wrapper object (truthy, prints like the primitive it wraps), or an
    object with a callable [subscribe], of which the handler also reads the
    [array] property.  Such a source may produce while it is being
    subscribed to ([Rx.Observable.range], [empty], [of]) or later (a
    subject, a timer): [inside] lists what [rewrapBatches(observable)]
    hands to its observer before [subscribe] returns.  What it delivers
    afterwards reaches the connection as [In_notify] inputs. *)
Inductive produced :=
  | Data (v : value)
  | Boxed (v : value)
  | Source (array : value) (inside : list notification).

Inductive call_result :=
  | Returned (p : produced)
  | Threw.

(** The result of [observables[key]]: a value that is not callable, or a
    function of [(offset, socket, sessionId)]; [socket] is the one socket of
    this connection and is left implicit. *)
Inductive property :=
  | Prop_data (v : value)
  | Prop_function (f : value → value → call_result).

Definition property_truthy (p : property) : bool :=
  match p with
  | Prop_data v => truthy v
  | Prop_function _ => true
  end.

(** What a plain object inherits from [Object.prototype], as the handler
    meets it: read with [observables[key]] and, when truthy, called as a plain
    function, so with [this] undefined.  [__proto__] answers with the
    prototype object itself, which is truthy and not callable; [constructor]
    is [Object], which wraps a primitive argument; [toString] prints
    [undefined]; [isPrototypeOf] answers [false] for a primitive argument;
    the other members convert [this] to an object first and throw. *)
Definition Object_prototype_member (key : string) : property :=
  if String.eqb key "__proto__" then Prop_data (VObject [])
  else if String.eqb key "constructor" then
    Prop_function (fun offset _ =>
      match offset with
      | VUndefined | VNull => Returned (Data (VObject []))
      | VArray _ | VObject _ => Returned (Data offset)
      | _ => Returned (Boxed offset)
      end)
  else if String.eqb key "toString" then
    Prop_function (fun _ _ => Returned (Data (VString "[object Undefined]")))
  else if String.eqb key "isPrototypeOf" then
    Prop_function (fun offset _ =>
      match offset with
      | VArray _ | VObject _ => Threw
      | _ => Returned (Data (VBool false))
      end)
  else if Object_prototype_has key then Prop_function (fun _ _ => Threw)
  else Prop_data VUndefined.

Fixpoint own_factory (own : list (string * (value → value → call_result)))
    (key : string) : option (value → value → call_result) :=
  match own with
  | [] => None
  | (k, f) :: rest => if String.eqb k key then Some f else own_factory rest key
  end.

(** A catalog written as an object literal of factories: own properties
    first, then what the literal inherits. *)
Definition ordinary_object
    (own : list (string * (value → value → call_result))) (key : string)
  : property :=
  match own_factory own key with
  | Some f => Prop_function f
  | None => Object_prototype_member key
  end.

Definition double_quote : string := String (Ascii.ascii_of_nat 34) "".

(** The JSON text of a value whose strings need no escaping; an absent
    value prints as [null]. *)
Fixpoint JSON_text (v : value) : string :=
  match v with
  | VUndefined | VNull => "null"
  | VBool true => "true"
  | VBool false => "false"
  | VNumber n => NumberToString n
  | VString s => double_quote +:+ s +:+ double_quote
  | VArray items =>
      "[" +:+
      (fix elements (l : list value) : string :=
         match l with
         | [] => ""
         | x :: rest =>
             JSON_text x +:+
             match rest with [] => "" | _ => "," +:+ elements rest end
         end) items
      +:+ "]"
  | VObject props =>
      "{" +:+
      (fix members (l : list (string * value)) : string :=
         match l with
         | [] => ""
         | (k, x) :: rest =>
             double_quote +:+ k +:+ double_quote +:+ ":" +:+ JSON_text x +:+
             match rest with [] => "" | _ => "," +:+ members rest end
         end) props
      +:+ "}"
  end.

(** [JSON.parse] on the texts of the given frames; any other text is
    treated as a syntax error. *)
Definition parse_frames (frames : list value) (data : string) : option value :=
  find (fun v => String.eqb (JSON_text v) data) frames.

Inductive ReadyState := CONNECTING | OPEN | CLOSING | CLOSED.

Definition ReadyState_code (rs : ReadyState) : string :=
  match rs with
  | CONNECTING => "0" | OPEN => "1" | CLOSING => "2" | CLOSED => "3"
  end.

(** The arguments of [onWebSocketConnection] and the host's [JSON.parse]
    ([None] when it throws a [SyntaxError]). *)
Record connection := {
  JSON_parse : string → option value;
  observables : string → property;
  connectionId : value;
  x_forwarded_for : option string;
  remoteAddress : string
}.

(** Calls on collaborators, in program order. *)
Inductive effect :=
  | E_console_exception
  | E_console_error (text : string)
  | E_log (line : string)
  | E_socket_send (payload : value)
  | E_event (event meta : value)
  | E_call (key : string) (offset session : value)
  | E_subscribe (ref : nat)
  | E_unsubscribe (ref : nat).

(** An Rx [Subscription] object: whether it is closed, the [name] property
    the handler attaches to it, and the subscriptionId its observer closes
    over. *)
Record Subscription := {
  closed : bool;
  name : value;
  observer_id : value
}.

(** The mutable variables of the closure, the store of subscription objects
    the table refers to, and the socket's [readyState]. *)
Record state := {
  sessionId : value;
  subscriptions : gmap string nat;
  rx_heap : gmap nat Subscription;
  next_ref : nat;
  readyState : ReadyState
}.

(** ** The handler monad: state, trace, exceptions *)

Inductive completion (A : Type) :=
  | Normal (a : A)
  | Thrown.
Arguments Normal {A} a.
Arguments Thrown {A}.

Record result (A : Type) := Result {
  completion_of : completion A;
  state_of : state;
  trace_of : list effect
}.
Arguments Result {A} _ _ _.
Arguments completion_of {A} _.
Arguments state_of {A} _.
Arguments trace_of {A} _.

Definition M (A : Type) : Type := state → result A.

Definition ret {A} (a : A) : M A := fun st => Result (Normal a) st [].

(** [r], with the effects [tr] before its own. *)
Definition prepend {A} (tr : list effect) (r : result A) : result A :=
  match r with
  | Result c st tr' => Result c st (tr ++ tr')
  end.

Definition bind {A B} (m : M A) (k : A → M B) : M B :=
  fun st =>
    match m st with
    | Result (Normal a) st' tr => prepend tr (k a st')
    | Result Thrown st' tr => Result Thrown st' tr
    end.

Definition throw {A} : M A := fun st => Result Thrown st [].

Definition emit (e : effect) : M unit := fun st => Result (Normal tt) st [e].

Definition get_state : M state := fun st => Result (Normal st) st [].

Definition modify (f : state → state) : M unit :=
  fun st => Result (Normal tt) (f st) [].

(** An abstract operation that raises a [TypeError] when it has no result. *)
Definition lift {A} (o : option A) : M A :=
  match o with
  | Some a => ret a
  | None => throw
  end.

Notation "'let*' x := m 'in' k" := (bind m (fun x => k))
  (at level 10, x name, m at level 100, k at level 200).
Notation "m >> k" := (bind m (fun _ => k))
  (at level 90, right associativity).

(** ** The closure of [onWebSocketConnection] *)

Variable conn : connection.

(** [headers['x-forwarded-for'] || connection.remoteAddress] *)
Definition remoteAddr : string :=
  match x_forwarded_for conn with
  | Some forwarded =>
      if String.eqb forwarded "" then remoteAddress conn else forwarded
  | None => remoteAddress conn
  end.

Definition log (message : string) : M unit :=
  emit (E_log ("[" +:+ remoteAddr +:+ "] " +:+ message)).

Definition send (object : value) : M unit :=
  let* st := get_state in
  match readyState st with
  | OPEN => emit (E_socket_send object)
  | rs => log ("Tried to send to WebSocket in readyState: "
               +:+ ReadyState_code rs)
  end.

Record Observer := {
  next : value → M unit;
  error : value → M unit;
  complete : M unit
}.

Definition createObserver (subscriptionId : value) : Observer := {|
  next batch :=
    send (VObject [("type", VString "events"); ("batch", batch);
                   ("subscriptionId", subscriptionId)]);
  error err :=
    (let* text := lift (ToString err) in log text) >>
    send (VObject [("type", VString "error"); ("error", err);
                   ("subscriptionId", subscriptionId)]);
  complete :=
    send (VObject [("type", VString "complete");
                   ("subscriptionId", subscriptionId)])
|}.

(** The [meta] object of [insertEvent], for the session id current at the
    time of the call. *)
Definition event_meta (sid : value) : value :=
  VObject [("connectionId", connectionId conn); ("sessionId", sid);
           ("ipAddress", VString remoteAddr)].

Definition insertEvent (event : value) : M unit :=
  let* st := get_state in
  emit (E_event event (event_meta (sessionId st))).

(** ** Rx subscriptions *)

Definition deliver (o : Observer) (n : notification) : M unit :=
  match n with
  | N_next batch => next o batch
  | N_error err => error o err
  | N_complete => complete o
  end.

Definition set_sessionId (v : value) (st : state) : state :=
  {| sessionId := v; subscriptions := subscriptions st;
     rx_heap := rx_heap st; next_ref := next_ref st;
     readyState := readyState st |}.

Definition set_subscriptions (t : gmap string nat) (st : state) : state :=
  {| sessionId := sessionId st; subscriptions := t;
     rx_heap := rx_heap st; next_ref := next_ref st;
     readyState := readyState st |}.

Definition set_rx_heap (h : gmap nat Subscription) (st : state) : state :=
  {| sessionId := sessionId st; subscriptions := subscriptions st;
     rx_heap := h; next_ref := next_ref st;
     readyState := readyState st |}.

Definition set_readyState (rs : ReadyState) (st : state) : state :=
  {| sessionId := sessionId st; subscriptions := subscriptions st;
     rx_heap := rx_heap st; next_ref := next_ref st;
     readyState := rs |}.

Definition allocate (subscriptionId : value) (st : state) : state :=
  {| sessionId := sessionId st; subscriptions := subscriptions st;
     rx_heap := <[next_ref st :=
                    {| closed := false; name := VUndefined;
                       observer_id := subscriptionId |}]> (rx_heap st);
     next_ref := S (next_ref st);
     readyState := readyState st |}.

Definition mark_closed (s : Subscription) : Subscription :=
  {| closed := true; name := name s; observer_id := observer_id s |}.

Definition close (ref : nat) (st : state) : state :=
  set_rx_heap (alter mark_closed ref (rx_heap st)) st.

Definition set_name (ref : nat) (v : value) (st : state) : state :=
  set_rx_heap
    (alter (fun s => {| closed := closed s; name := v;
                        observer_id := observer_id s |}) ref (rx_heap st))
    st.

(** The subscriber contract of Rx: a notification reaches the observer only
    while the subscription is open, and [error] and [complete] close it. *)
Definition notify (ref : nat) (n : notification) : M unit :=
  let* st := get_state in
  match rx_heap st !! ref with
  | Some s =>
      if closed s then ret tt
      else
        (if is_terminal n then modify (close ref) else ret tt) >>
        deliver (createObserver (observer_id s)) n
  | None => ret tt
  end.

(** The two observables the handler subscribes to, and what each hands to
    its observer while [subscribe] runs: [Rx.Observable.of(v)] emits [v] and
    completes; the batched stream hands over what its source produces in
    that time. *)
Inductive Observable :=
  | Observable_of (v : value)
  | Rewrapped (inside : list notification).

Definition synchronous (b : Observable) : list notification :=
  match b with
  | Observable_of v => [N_next v; N_complete]
  | Rewrapped inside => inside
  end.

(** The subscriber contract again, for the notifications made while
    [subscribe] runs: they reach the observer in order up to the first
    [error] or [complete], which stops the subscriber.  The result tells
    whether it was stopped. *)
Fixpoint deliver_while_open (o : Observer) (ns : list notification) : M bool :=
  match ns with
  | [] => ret false
  | n :: rest =>
      deliver o n >>
      if is_terminal n then ret true else deliver_while_open o rest
  end.

(** A notification the observer can handle: its [error] logs the error,
    which has to convert to a string. *)
Definition prints (n : notification) : Prop :=
  match n with
  | N_error err => is_Some (ToString err)
  | _ => True
  end.

(** [batchedResults.subscribe(createObserver(subscriptionId))]: the
    observer is served first, and the subscription that comes back is closed
    when the stream has ended by then.  An exception raised by the observer
    propagates out of [subscribe], so no subscription comes back. *)
Definition subscribe (b : Observable) (subscriptionId : value) : M nat :=
  let* st := get_state in
  let ref := next_ref st in
  emit (E_subscribe ref) >>
  let* stopped :=
    deliver_while_open (createObserver subscriptionId) (synchronous b) in
  modify (allocate subscriptionId) >>
  (if stopped then modify (close ref) else ret tt) >>
  ret ref.

(** [subscription.unsubscribe()] *)
Definition unsubscribe (ref : nat) : M unit :=
  emit (E_unsubscribe ref) >> modify (close ref).

(** [key in subscriptions]: own keys and what [{}] inherits. *)
Definition has_property (table : gmap string nat) (key : string) : bool :=
  match table !! key with
  | Some _ => true
  | None => Object_prototype_has key
  end.

(** The [name] of the function or object [Object.prototype] holds at [key]. *)
Definition Object_prototype_member_name (key : string) : string :=
  if String.eqb key "__proto__" then "undefined"
  else if String.eqb key "constructor" then "Object"
  else key.

Fixpoint for_each (refs : list nat) : M unit :=
  match refs with
  | [] => ret tt
  | ref :: rest => unsubscribe ref >> for_each rest
  end.

(** The [for..in] loop visits every own key once; the order in which it
    does so is not modelled. *)
Definition cleanup : M unit :=
  log "Closing WebSocket" >>
  (let* st := get_state in
   for_each (snd <$> map_to_list (subscriptions st))) >>
  modify (set_subscriptions ∅) >>
  insertEvent (VObject [("type", VString "connection-closed")]).

Definition parseJSON (data : string) : M value :=
  match JSON_parse conn data with
  | Some v => ret v
  | None => emit E_console_exception >> ret VNull
  end.

Definition produced_truthy (p : produced) : bool :=
  match p with
  | Data v => truthy v
  | Boxed _ | Source _ _ => true
  end.

(** [typeof observable.subscribe === 'function'] *)
Definition has_subscribe (p : produced) : bool :=
  match p with
  | Source _ _ => true
  | Data _ | Boxed _ => false
  end.

Definition produced_ToString (p : produced) : option string :=
  match p with
  | Data v | Boxed v => ToString v
  | Source _ _ => Some "[object Object]"
  end.

Definition produced_array (p : produced) : value :=
  match p with
  | Source array _ => array
  | Data _ | Boxed _ => VUndefined
  end.

Definition produced_inside (p : produced) : list notification :=
  match p with
  | Source _ inside => inside
  | Data _ | Boxed _ => []
  end.

Definition isArray (v : value) : bool :=
  match v with VArray _ => true | _ => false end.

Definition error_envelope (subscriptionId code : value) (text : string)
  : value :=
  VObject [("type", VString "error");
           ("subscriptionId", subscriptionId);
           ("error", VObject [("code", code); ("message", VString text)])].

Definition on_hello (message : value) : M unit :=
  let* sid := lift (Get message "sessionId") in
  if negb (is_string sid) then log "expected sessionId"
  else
    modify (set_sessionId sid) >>
    insertEvent (VObject [("type", VString "connection-open")]) >>
    (let* text := lift (ToString sid) in log ("open session " +:+ text)).

Definition on_subscribe (message : value) : M unit :=
  let* offset := lift (Get message "offset") in
  if negb (is_number offset) then log "expected offset number"
  else
  let* subscriptionId := lift (Get message "subscriptionId") in
  if negb (is_number subscriptionId) then log "expected subscriptionId string"
  else
  let* key := lift (ToPropertyKey subscriptionId) in
  let* st := get_state in
  if has_property (subscriptions st) key
  then log ("subscriptionId sent twice: " +:+ key)
  else
  let* name_ := lift (Get message "name") in
  let* name_key := lift (ToPropertyKey name_) in
  let fn := observables conn name_key in
  (let* text := lift (ToString name_) in log ("subscribing to " +:+ text)) >>
  if property_truthy fn then
    match fn with
    | Prop_data _ => throw
    | Prop_function f =>
        emit (E_call name_key offset (sessionId st)) >>
        match f offset (sessionId st) with
        | Threw => throw
        | Returned observable =>
            if produced_truthy observable && has_subscribe observable then
              let batchedResults :=
                if isArray (produced_array observable)
                then Observable_of (produced_array observable)
                else Rewrapped (produced_inside observable) in
              let* subscription := subscribe batchedResults subscriptionId in
              modify (set_name subscription name_) >>
              modify (fun st' =>
                        set_subscriptions
                          (<[key := subscription]> (subscriptions st')) st')
            else
              (let* text := lift (ToString name_) in
               let* got := lift (produced_ToString observable) in
               emit (E_console_error
                       ("Expected Rx.Observable instance for key " +:+ text
                        +:+ ", got: " +:+ got))) >>
              send (error_envelope subscriptionId (VString "500")
                      "Internal Server Error")
        end
    end
  else
    send (error_envelope subscriptionId (VNumber (number_lit 404))
            "Not found").

Definition on_unsubscribe (message : value) : M unit :=
  let* subscriptionId := lift (Get message "subscriptionId") in
  let* key := lift (ToPropertyKey subscriptionId) in
  let* st := get_state in
  if negb (has_property (subscriptions st) key)
  then log ("subscriptionId not found: " +:+ key)
  else
  if negb (is_number subscriptionId) then log "expected subscriptionId number"
  else
    match subscriptions st !! key with
    | Some ref =>
        (let* text :=
           lift (ToString (default VUndefined (name <$> rx_heap st !! ref))) in
         log ("unsubscribing from " +:+ text)) >>
        unsubscribe ref >>
        modify (fun st' =>
                  set_subscriptions (delete key (subscriptions st')) st')
    | None =>
        (* an inherited member stands in for the subscription: it has a
           name but no [unsubscribe] method *)
        log ("unsubscribing from " +:+ Object_prototype_member_name key) >>
        throw
    end.

(** [socket.on('message', ...)] *)
Definition onMessage (data : string) : M unit :=
  let* message := parseJSON data in
  if is_nullish message then log "Error parsing JSON"
  else
  let* type := lift (Get message "type") in
  match type with
  | VString t =>
      if String.eqb t "hello" then on_hello message
      else if String.eqb t "subscribe" then on_subscribe message
      else if String.eqb t "unsubscribe" then on_unsubscribe message
      else log ("Received unknown message type " +:+ t)
  | _ => log "Received message without a type"
  end.

(** The state when [onWebSocketConnection] returns, and what it logged. *)
Definition initial (rs : ReadyState) : state :=
  {| sessionId := VNull; subscriptions := ∅; rx_heap := ∅;
     next_ref := 0; readyState := rs |}.

Definition onWebSocketConnection (rs : ReadyState) : result unit :=
  log "WebSocket connection opened" (initial rs).

(** ** The connection as a transition system *)

Inductive input :=
  | In_message (data : string)
  | In_close
  | In_notify (ref : nat) (n : notification)
  | In_readyState (rs : ReadyState).

Definition step (i : input) : M unit :=
  match i with
  | In_message data => onMessage data
  | In_close => cleanup
  | In_notify ref n => notify ref n
  | In_readyState rs => modify (set_readyState rs)
  end.

(** Runs the inputs one after the other; an exception ends the handler that
    raised it, not the run.  The result pairs each input with what its
    handler did. *)
Fixpoint run (ins : list input) (st : state)
  : state * list (input * list effect) :=
  match ins with
  | [] => (st, [])
  | i :: rest =>
      let r := step i st in
      let '(st', log_) := run rest (state_of r) in
      (st', (i, trace_of r) :: log_)
  end.

(** ** Reading a trace *)

Definition socket_sends (tr : list effect) : list value :=
  omap (fun e => match e with E_socket_send v => Some v | _ => None end) tr.

Definition events (tr : list effect) : list (value * value) :=
  omap (fun e => match e with E_event ev meta => Some (ev, meta) | _ => None end)
       tr.

Definition unsubscribed (tr : list effect) : list nat :=
  omap (fun e => match e with E_unsubscribe ref => Some ref | _ => None end) tr.

Definition calls (tr : list effect) : list (string * value * value) :=
  omap (fun e => match e with
                 | E_call key offset sid => Some (key, offset, sid)
                 | _ => None
                 end) tr.

(** What [send] does with an envelope, by the socket's [readyState]. *)
Definition send_trace (rs : ReadyState) (object : value) : list effect :=
  match rs with
  | OPEN => [E_socket_send object]
  | _ => [E_log ("[" +:+ remoteAddr
                 +:+ "] Tried to send to WebSocket in readyState: "
                 +:+ ReadyState_code rs)]
  end.

(** ** Invariants of handlers *)

(** [triple P m Q X T]: from a state in [P], every effect of [m] is in [T],
    and [m] ends in [Q] when it returns and in [X] when it throws. *)
Definition triple {A} (P : state → Prop) (m : M A) (Q : A → state → Prop)
    (X : state → Prop) (T : effect → Prop) : Prop :=
  ∀ st, P st →
    Forall T (trace_of (m st)) ∧
    match completion_of (m st) with
    | Normal a => Q a (state_of (m st))
    | Thrown => X (state_of (m st))
    end.

Definition keeps (I : state → Prop) (T : effect → Prop) {A} (m : M A) : Prop :=
  triple I m (fun _ => I) I T.

Definition any_effect (e : effect) : Prop := True.

Definition no_call (e : effect) : Prop :=
  ∀ key offset sid, e ≠ E_call key offset sid.

(** A subscription object that will never deliver again: its reference is
    allocated and, if the object exists, it is closed. *)
Definition dead (ref : nat) (st : state) : Prop :=
  ref < next_ref st ∧ ∀ s, rx_heap st !! ref = Some s → closed s = true.

(** Every reference in the table has been allocated. *)
Definition refs_allocated (st : state) : Prop :=
  ∀ key ref, subscriptions st !! key = Some ref → ref < next_ref st.

(** ** Protocol errors *)

(** The inbound messages the handler rejects, for a table as in [st]; the
    index is the outcome of [JSON.parse].  An unsubscribe is listed when its
    subscriptionId converts to a property key. *)
Inductive protocol_error (st : state) : option value → Prop :=
  | PE_syntax :
      protocol_error st None
  | PE_null message :
      is_nullish message = true →
      protocol_error st (Some message)
  | PE_type message type :
      Get message "type" = Some type →
      is_string type = false →
      protocol_error st (Some message)
  | PE_unknown_type message t :
      Get message "type" = Some (VString t) →
      t ≠ "hello" → t ≠ "subscribe" → t ≠ "unsubscribe" →
      protocol_error st (Some message)
  | PE_sessionId message sid :
      Get message "type" = Some (VString "hello") →
      Get message "sessionId" = Some sid →
      is_string sid = false →
      protocol_error st (Some message)
  | PE_offset message offset :
      Get message "type" = Some (VString "subscribe") →
      Get message "offset" = Some offset →
      is_number offset = false →
      protocol_error st (Some message)
  | PE_subscriptionId message subscriptionId :
      Get message "type" = Some (VString "subscribe") →
      Get message "subscriptionId" = Some subscriptionId →
      is_number subscriptionId = false →
      protocol_error st (Some message)
  | PE_duplicate message n :
      Get message "type" = Some (VString "subscribe") →
      Get message "subscriptionId" = Some (VNumber n) →
      is_Some (subscriptions st !! NumberToString n) →
      protocol_error st (Some message)
  | PE_unknown_id message subscriptionId key :
      Get message "type" = Some (VString "unsubscribe") →
      Get message "subscriptionId" = Some subscriptionId →
      ToPropertyKey subscriptionId = Some key →
      subscriptions st !! key = None →
      protocol_error st (Some message)
  | PE_unsubscribe_id message subscriptionId key :
      Get message "type" = Some (VString "unsubscribe") →
      Get message "subscriptionId" = Some subscriptionId →
      ToPropertyKey subscriptionId = Some key →
      is_number subscriptionId = false →
      protocol_error st (Some message).

(** A subscribe that is well-formed but for its [name], which is missing or
    not a string. *)
Definition subscribe_without_name (st : state) (message : value) : Prop :=
  ∃ offset n name_,
    Get message "type" = Some (VString "subscribe") ∧
    Get message "offset" = Some offset ∧ is_number offset = true ∧
    Get message "subscriptionId" = Some (VNumber n) ∧
    subscriptions st !! NumberToString n = None ∧
    Get message "name" = Some name_ ∧ is_string name_ = false.

(** The outcome of a rejected message: the handler returns, something was
    logged, nothing was written to the socket, no domain event was emitted,
    nothing was cancelled, and the state (table, session, subscription
    objects, socket state) is as before. *)
Definition silently_dropped (st : state) (r : result unit) : Prop :=
  completion_of r = Normal tt ∧
  (∃ line, E_log line ∈ trace_of r) ∧
  socket_sends (trace_of r) = [] ∧
  events (trace_of r) = [] ∧
  unsubscribed (trace_of r) = [] ∧
  state_of r = st.

(** ** Sessions *)

(** A [hello] the handler accepts. *)
Definition valid_hello (data : string) : Prop :=
  ∃ message sid,
    JSON_parse conn data = Some message ∧
    Get message "type" = Some (VString "hello") ∧
    Get message "sessionId" = Some (VString sid).

Definition not_hello (i : input) : Prop :=
  ∀ data, i = In_message data → ¬ valid_hello data.

Definition session_null (st : state) : Prop := sessionId st = VNull.

Definition null_meta (e : effect) : Prop :=
  ∀ ev meta, e = E_event ev meta → meta = event_meta VNull.

Definition fixed_meta (e : effect) : Prop :=
  ∀ ev meta, e = E_event ev meta → ∃ sid, meta = event_meta sid.

(** ** Evaluating handlers *)

Lemma prepend_nil {A} (r : result A) : prepend [] r = r.
Proof. by destruct r. Qed.

Lemma send_eq object st :
  send object st = Result (Normal tt) st (send_trace (readyState st) object).
Proof. unfold send, bind, get_state. cbn. by destruct (readyState st). Qed.

Lemma log_eq message st :
  log message st =
  Result (Normal tt) st [E_log ("[" +:+ remoteAddr +:+ "] " +:+ message)].
Proof. done. Qed.

Lemma onWebSocketConnection_eq rs :
  onWebSocketConnection rs =
  Result (Normal tt) (initial rs)
    [E_log ("[" +:+ remoteAddr +:+ "] WebSocket connection opened")].
Proof. done. Qed.

Lemma Get_Some_not_nullish message key v :
  Get message key = Some v → is_nullish message = false.
Proof. by destruct message. Qed.

Lemma Get_defined message key :
  is_nullish message = false → ∃ v, Get message key = Some v.
Proof. destruct message; cbn; try done; eauto. Qed.

Lemma is_number_inv v : is_number v = true → ∃ n, v = VNumber n.
Proof. destruct v; try done. eauto. Qed.

Lemma is_string_inv v : is_string v = true → ∃ s, v = VString s.
Proof. destruct v; try done. eauto. Qed.

Lemma has_property_number table n :
  has_property table (NumberToString n) =
  bool_decide (is_Some (table !! NumberToString n)).
Proof.
  unfold has_property. destruct (table !! NumberToString n) eqn:E.
  - by rewrite bool_decide_eq_true_2.
  - rewrite NumberToString_own.
    rewrite bool_decide_eq_false_2; [done | by intros [? ?]].
Qed.

Lemma number_key_own table n key :
  ToPropertyKey (VNumber n) = Some key →
  has_property table key = bool_decide (is_Some (table !! key)).
Proof. intros [= <-]. apply has_property_number. Qed.

(** Entering the [switch] with a string [type]. *)
Lemma onMessage_dispatch data message t st :
  JSON_parse conn data = Some message →
  Get message "type" = Some (VString t) →
  onMessage data st =
  (if String.eqb t "hello" then on_hello message
   else if String.eqb t "subscribe" then on_subscribe message
   else if String.eqb t "unsubscribe" then on_unsubscribe message
   else log ("Received unknown message type " +:+ t)) st.
Proof.
  intros Hparse Htype. unfold onMessage, parseJSON, bind. rewrite Hparse. cbn.
  rewrite (Get_Some_not_nullish _ _ _ Htype), Htype. cbn.
  by rewrite !prepend_nil.
Qed.

(** The subscribe case up to the catalog lookup. *)
Lemma on_subscribe_lookup message offset n name_ key st :
  Get message "offset" = Some offset →
  is_number offset = true →
  Get message "subscriptionId" = Some (VNumber n) →
  subscriptions st !! NumberToString n = None →
  Get message "name" = Some name_ →
  ToPropertyKey name_ = Some key →
  on_subscribe message st =
  prepend [E_log ("[" +:+ remoteAddr +:+ "] subscribing to " +:+ key)]
   ((if property_truthy (observables conn key) then
       match observables conn key with
       | Prop_data _ => throw
       | Prop_function f =>
           emit (E_call key offset (sessionId st)) >>
           match f offset (sessionId st) with
           | Threw => throw
           | Returned observable =>
               if produced_truthy observable && has_subscribe observable then
                 let batchedResults :=
                   if isArray (produced_array observable)
                   then Observable_of (produced_array observable)
                   else Rewrapped (produced_inside observable) in
                 let* subscription := subscribe batchedResults (VNumber n) in
                 modify (set_name subscription name_) >>
                 modify (fun st' =>
                           set_subscriptions
                             (<[NumberToString n := subscription]>
                                (subscriptions st')) st')
               else
                 (let* text := lift (ToString name_) in
                  let* got := lift (produced_ToString observable) in
                  emit (E_console_error
                          ("Expected Rx.Observable instance for key " +:+ text
                           +:+ ", got: " +:+ got))) >>
                 send (error_envelope (VNumber n) (VString "500")
                         "Internal Server Error")
           end
       end
     else
       send (error_envelope (VNumber n) (VNumber (number_lit 404))
               "Not found")) st).
Proof.
  intros Hoff Hnum Hid Hfree Hname Hkey.
  unfold on_subscribe. unfold bind at 1. rewrite Hoff. cbn. rewrite Hnum. cbn.
  unfold bind at 1. rewrite Hid. cbn.
  unfold bind at 1. cbn. unfold bind at 1. cbn.
  rewrite has_property_number, Hfree. cbn.
  unfold bind at 1. rewrite Hname. cbn.
  unfold bind at 1. rewrite Hkey. cbn.
  unfold bind at 1. unfold bind at 1.
  unfold ToPropertyKey in Hkey. rewrite Hkey. cbn.
  rewrite !prepend_nil. reflexivity.
Qed.

Arguments send : simpl never.
Arguments notify : simpl never.

(** The not-found branch.  A subscribe with a numeric offset and a numeric
    subscriptionId that is free in the table, for which [observables[name]]
    is [undefined], is logged and answered through [send] with the single
    envelope [error{subscriptionId, code: 404, message: "Not found"}]: on an
    open socket that is the only frame written.  No factory runs, no
    subscription is created and the state is untouched. *)
Lemma subscribe_unknown_name_404 data message offset n name_ key st :
  JSON_parse conn data = Some message →
  Get message "type" = Some (VString "subscribe") →
  Get message "offset" = Some offset →
  is_number offset = true →
  Get message "subscriptionId" = Some (VNumber n) →
  subscriptions st !! NumberToString n = None →
  Get message "name" = Some name_ →
  ToPropertyKey name_ = Some key →
  observables conn key = Prop_data VUndefined →
  let envelope :=
    VObject [("type", VString "error"); ("subscriptionId", VNumber n);
             ("error", VObject [("code", VNumber (number_lit 404));
                                ("message", VString "Not found")])] in
  let r := onMessage data st in
  completion_of r = Normal tt ∧
  state_of r = st ∧
  trace_of r = E_log ("[" +:+ remoteAddr +:+ "] subscribing to " +:+ key)
               :: send_trace (readyState st) envelope ∧
  calls (trace_of r) = [] ∧
  (readyState st = OPEN → socket_sends (trace_of r) = [envelope]).
Proof.
  intros Hparse Htype Hoff Hnum Hid Hfree Hname Hkey Hcat envelope r.
  assert (r = Result (Normal tt) st
                (E_log ("[" +:+ remoteAddr +:+ "] subscribing to " +:+ key)
                 :: send_trace (readyState st) envelope)) as ->.
  { subst r envelope. rewrite (onMessage_dispatch _ _ _ _ Hparse Htype). cbn.
    rewrite (on_subscribe_lookup _ _ _ _ _ _ Hoff Hnum Hid Hfree Hname Hkey).
    rewrite Hcat. cbn. by rewrite send_eq. }
  cbn. repeat split; try done.
  - by destruct (readyState st).
  - intros ->. reflexivity.
Qed.

(** On a catalog written as an object literal, the lookup is [undefined]
    for the names that are neither one of its factories nor a member of
    [Object.prototype]. *)
Lemma ordinary_object_absent own key :
  own_factory own key = None →
  Object_prototype_has key = false →
  ordinary_object own key = Prop_data VUndefined.
Proof.
  intros Hown Hproto. unfold ordinary_object. rewrite Hown.
  unfold Object_prototype_member. rewrite Hproto.
  repeat match goal with
         | |- context [String.eqb key ?s] =>
             let E := fresh "E" in
             destruct (String.eqb key s) eqn:E;
             [apply String.eqb_eq in E; subst key; by vm_compute in Hproto|]
         end.
  done.
Qed.

(** What the handler does when the factory's value is not a stream. *)
Lemma subscribe_not_a_stream data message offset n name_ key f observable got
    st :
  JSON_parse conn data = Some message →
  Get message "type" = Some (VString "subscribe") →
  Get message "offset" = Some offset →
  is_number offset = true →
  Get message "subscriptionId" = Some (VNumber n) →
  subscriptions st !! NumberToString n = None →
  Get message "name" = Some name_ →
  ToPropertyKey name_ = Some key →
  observables conn key = Prop_function f →
  f offset (sessionId st) = Returned observable →
  produced_truthy observable && has_subscribe observable = false →
  produced_ToString observable = Some got →
  onMessage data st =
  Result (Normal tt) st
    (E_log ("[" +:+ remoteAddr +:+ "] subscribing to " +:+ key)
     :: E_call key offset (sessionId st)
     :: E_console_error ("Expected Rx.Observable instance for key " +:+ key
                         +:+ ", got: " +:+ got)
     :: send_trace (readyState st)
          (error_envelope (VNumber n) (VString "500")
             "Internal Server Error")).
Proof.
  intros Hparse Htype Hoff Hnum Hid Hfree Hname Hkey Hcat Hcall Hshape Hgot.
  rewrite (onMessage_dispatch _ _ _ _ Hparse Htype). cbn.
  rewrite (on_subscribe_lookup _ _ _ _ _ _ Hoff Hnum Hid Hfree Hname Hkey).
  rewrite Hcat. cbn. unfold bind at 1. cbn. rewrite Hcall, Hshape.
  unfold ToPropertyKey in Hkey.
  unfold bind. rewrite Hkey. cbn. rewrite Hgot. cbn.
  by rewrite send_eq.
Qed.

Lemma notify_closed ref n s st :
  rx_heap st !! ref = Some s → closed s = true →
  notify ref n st = Result (Normal tt) st [].
Proof. intros Hs Hc. unfold notify, bind. cbn. by rewrite Hs, Hc. Qed.

Lemma notify_unknown ref n st :
  rx_heap st !! ref = None → notify ref n st = Result (Normal tt) st [].
Proof. intros Hs. unfold notify, bind. cbn. by rewrite Hs. Qed.

(** A notification that reaches the observer of an open subscription. *)
Lemma notify_open ref n s st :
  rx_heap st !! ref = Some s → closed s = false →
  notify ref n st =
  deliver (createObserver (observer_id s)) n
    (if is_terminal n then close ref st else st).
Proof.
  intros Hs Hc. unfold notify, bind. cbn. rewrite Hs, Hc.
  destruct (is_terminal n); cbn; by rewrite !prepend_nil.
Qed.

Lemma deliver_next subscriptionId batch st :
  deliver (createObserver subscriptionId) (N_next batch) st =
  Result (Normal tt) st
    (send_trace (readyState st)
       (VObject [("type", VString "events"); ("batch", batch);
                 ("subscriptionId", subscriptionId)])).
Proof. cbn. by rewrite send_eq. Qed.

Lemma deliver_complete subscriptionId st :
  deliver (createObserver subscriptionId) N_complete st =
  Result (Normal tt) st
    (send_trace (readyState st)
       (VObject [("type", VString "complete");
                 ("subscriptionId", subscriptionId)])).
Proof. cbn. by rewrite send_eq. Qed.

Lemma deliver_error subscriptionId err text st :
  ToString err = Some text →
  deliver (createObserver subscriptionId) (N_error err) st =
  Result (Normal tt) st
    (E_log ("[" +:+ remoteAddr +:+ "] " +:+ text)
     :: send_trace (readyState st)
          (VObject [("type", VString "error"); ("error", err);
                    ("subscriptionId", subscriptionId)])).
Proof. intros Htext. cbn. unfold bind. rewrite Htext. cbn. by rewrite send_eq. Qed.

Lemma bind_eval {A B} (m : M A) (k : A → M B) st a st' tr :
  m st = Result (Normal a) st' tr → bind m k st = prepend tr (k a st').
Proof. intros Hm. unfold bind. by rewrite Hm. Qed.

Lemma bind_throws {A B} (m : M A) (k : A → M B) st st' tr :
  m st = Result Thrown st' tr → bind m k st = Result Thrown st' tr.
Proof. intros Hm. unfold bind. by rewrite Hm. Qed.

(** The observer only talks: it leaves the state alone. *)
Lemma deliver_state subscriptionId n st :
  state_of (deliver (createObserver subscriptionId) n st) = st.
Proof.
  destruct n as [batch|err|]; cbn.
  - by rewrite send_eq.
  - unfold bind. destruct (ToString err); cbn; [|done]. by rewrite send_eq.
  - by rewrite send_eq.
Qed.

Lemma deliver_prints subscriptionId n st :
  prints n →
  deliver (createObserver subscriptionId) n st =
  Result (Normal tt) st
    (trace_of (deliver (createObserver subscriptionId) n st)).
Proof.
  destruct n as [batch|err|]; cbn [prints].
  - intros _. by rewrite deliver_next.
  - intros [text Htext]. by rewrite (deliver_error _ _ _ _ Htext).
  - intros _. by rewrite deliver_complete.
Qed.

Lemma deliver_while_open_state subscriptionId ns st :
  state_of (deliver_while_open (createObserver subscriptionId) ns st) = st.
Proof.
  induction ns as [|n ns IH]; [done|]. cbn [deliver_while_open].
  pose proof (deliver_state subscriptionId n st) as Hst. unfold bind.
  destruct (deliver (createObserver subscriptionId) n st) as [[[]|] st' tr];
    cbn in Hst; subst st'; [|done].
  destruct (is_terminal n); [done|].
  destruct (deliver_while_open (createObserver subscriptionId) ns st). done.
Qed.

(** Notifications the observer can handle are delivered up to the first
    terminal one. *)
Lemma deliver_while_open_prints subscriptionId ns st :
  Forall prints ns →
  deliver_while_open (createObserver subscriptionId) ns st =
  Result (Normal (existsb is_terminal ns)) st
    (trace_of (deliver_while_open (createObserver subscriptionId) ns st)).
Proof.
  induction 1 as [|n ns Hn _ IH]; [done|]. cbn [deliver_while_open existsb].
  rewrite (bind_eval _ _ _ _ _ _ (deliver_prints subscriptionId n st Hn)).
  destruct (is_terminal n); [done|]. cbn [orb].
  rewrite IH at 1. cbn. f_equal.
  by destruct (deliver_while_open (createObserver subscriptionId) ns st).
Qed.

Lemma subscribe_returns b subscriptionId stopped tr st :
  deliver_while_open (createObserver subscriptionId) (synchronous b) st =
  Result (Normal stopped) st tr →
  subscribe b subscriptionId st =
  Result (Normal (next_ref st))
    (if stopped then close (next_ref st) (allocate subscriptionId st)
     else allocate subscriptionId st)
    (E_subscribe (next_ref st) :: tr).
Proof.
  intros Hserved. unfold subscribe.
  rewrite (bind_eval get_state _ st st st []) by done. rewrite prepend_nil.
  cbv zeta.
  rewrite (bind_eval (emit _) _ st tt st [E_subscribe (next_ref st)]) by done.
  rewrite (bind_eval _ _ _ _ _ _ Hserved).
  destruct stopped; cbn; by rewrite app_nil_r.
Qed.

Lemma subscribe_throws b subscriptionId tr st :
  deliver_while_open (createObserver subscriptionId) (synchronous b) st =
  Result Thrown st tr →
  subscribe b subscriptionId st =
  Result Thrown st (E_subscribe (next_ref st) :: tr).
Proof.
  intros Hserved. unfold subscribe.
  rewrite (bind_eval get_state _ st st st []) by done. rewrite prepend_nil.
  cbv zeta.
  rewrite (bind_eval (emit _) _ st tt st [E_subscribe (next_ref st)]) by done.
  by rewrite (bind_throws _ _ _ _ _ Hserved).
Qed.

(** [subscribe] either throws and leaves the state alone, or returns the
    subscription it has put in the store, open or closed. *)
Lemma subscribe_cases b subscriptionId st :
  (∃ tr, subscribe b subscriptionId st = Result Thrown st tr) ∨
  (∃ stopped tr,
     subscribe b subscriptionId st =
     Result (Normal (next_ref st))
       (if stopped : bool
        then close (next_ref st) (allocate subscriptionId st)
        else allocate subscriptionId st)
       (E_subscribe (next_ref st) :: tr)).
Proof.
  pose proof (deliver_while_open_state subscriptionId (synchronous b) st)
    as Hst.
  destruct (deliver_while_open (createObserver subscriptionId)
              (synchronous b) st) as [[stopped|] st' tr] eqn:Hserved;
    cbn in Hst; subst st'.
  - right. exists stopped, tr. by apply subscribe_returns.
  - left. eexists. by apply subscribe_throws.
Qed.

(** Subscribing to a stream whose notifications the observer can handle. *)
Lemma subscribe_prints b subscriptionId st :
  Forall prints (synchronous b) →
  subscribe b subscriptionId st =
  Result (Normal (next_ref st))
    (if existsb is_terminal (synchronous b)
     then close (next_ref st) (allocate subscriptionId st)
     else allocate subscriptionId st)
    (E_subscribe (next_ref st)
     :: trace_of (deliver_while_open (createObserver subscriptionId)
                    (synchronous b) st)).
Proof.
  intros Hns. apply subscribe_returns.
  by apply deliver_while_open_prints.
Qed.

(** Subscribing to [Rx.Observable.of(v)]: the observer gets [v] and the
    completion before [subscribe] returns the closed subscription. *)
Lemma subscribe_of v subscriptionId st :
  subscribe (Observable_of v) subscriptionId st =
  Result (Normal (next_ref st))
    (close (next_ref st) (allocate subscriptionId st))
    (E_subscribe (next_ref st)
     :: trace_of (deliver (createObserver subscriptionId) (N_next v) st)
     ++ trace_of (deliver (createObserver subscriptionId) N_complete st)).
Proof.
  rewrite (subscribe_returns _ _ true
             (trace_of (deliver (createObserver subscriptionId) (N_next v) st)
              ++ trace_of (deliver (createObserver subscriptionId) N_complete
                             st))); [done|].
  cbn [synchronous deliver_while_open is_terminal].
  rewrite (bind_eval _ _ _ _ _ _ (deliver_next subscriptionId v st)).
  rewrite (bind_eval _ _ _ _ _ _ (deliver_complete subscriptionId st)).
  rewrite deliver_next, deliver_complete. cbn. by rewrite app_nil_r.
Qed.

Arguments subscribe : simpl never.

(** C9. When the factory returns an array-shaped source (its [array]
    property is an array), the observer of the new subscription receives,
    while the message is handled, exactly one batch equal to that array and
    then the completion: on an open socket the frames written are one
    [events] envelope carrying the whole array and one [complete]
    envelope.  The batching adapter is not involved. *)
Theorem subscribe_array_shaped
    data message offset n name_ key f items inside st :
  JSON_parse conn data = Some message →
  Get message "type" = Some (VString "subscribe") →
  Get message "offset" = Some offset →
  is_number offset = true →
  Get message "subscriptionId" = Some (VNumber n) →
  subscriptions st !! NumberToString n = None →
  Get message "name" = Some name_ →
  ToPropertyKey name_ = Some key →
  observables conn key = Prop_function f →
  f offset (sessionId st) = Returned (Source (VArray items) inside) →
  let o := createObserver (VNumber n) in
  let ref := next_ref st in
  let r := onMessage data st in
  completion_of r = Normal tt ∧
  trace_of r =
    ([E_log ("[" +:+ remoteAddr +:+ "] subscribing to " +:+ key);
      E_call key offset (sessionId st); E_subscribe ref]
     ++ trace_of (deliver o (N_next (VArray items)) st)
     ++ trace_of (deliver o N_complete st))%list ∧
  (readyState st = OPEN →
   socket_sends (trace_of r) =
   [VObject [("type", VString "events"); ("batch", VArray items);
             ("subscriptionId", VNumber n)];
    VObject [("type", VString "complete"); ("subscriptionId", VNumber n)]]) ∧
  subscriptions (state_of r) = <[NumberToString n := ref]> (subscriptions st) ∧
  rx_heap (state_of r) !! ref =
    Some {| closed := true; name := name_; observer_id := VNumber n |}.
Proof.
  intros Hparse Htype Hoff Hnum Hid Hfree Hname Hkey Hcat Hcall o ref r.
  subst r o. rewrite (onMessage_dispatch _ _ _ _ Hparse Htype). cbn.
  rewrite (on_subscribe_lookup _ _ _ _ _ _ Hoff Hnum Hid Hfree Hname Hkey).
  rewrite Hcat, Hcall. cbn.
  erewrite bind_eval by apply subscribe_of.
  rewrite ?deliver_next, ?deliver_complete, ?send_eq. cbn.
  rewrite app_nil_r. repeat split.
  - intros ->. reflexivity.
  - subst ref. rewrite !lookup_alter_eq, lookup_insert_eq. reflexivity.
Qed.

(** A subscribe whose subscriptionId is in the table. *)
Lemma subscribe_duplicate data message offset n st :
  JSON_parse conn data = Some message →
  Get message "type" = Some (VString "subscribe") →
  Get message "offset" = Some offset →
  is_number offset = true →
  Get message "subscriptionId" = Some (VNumber n) →
  is_Some (subscriptions st !! NumberToString n) →
  onMessage data st =
  Result (Normal tt) st
    [E_log ("[" +:+ remoteAddr +:+ "] subscriptionId sent twice: "
            +:+ NumberToString n)].
Proof.
  intros Hparse Htype Hoff Hnum Hid Htaken.
  rewrite (onMessage_dispatch _ _ _ _ Hparse Htype). cbn.
  unfold on_subscribe, bind. rewrite Hoff. cbn. rewrite Hnum. cbn.
  rewrite Hid. cbn. rewrite has_property_number.
  by rewrite bool_decide_eq_true_2.
Qed.

(** C5, as the code has it.  When the stream of an open subscription
    terminates, its observer gets the terminal notification and sends the
    terminal envelope ([complete], or a log line and [error]) and the
    subscription object is closed, so nothing more is delivered for it.  The
    subscription table is not touched: the entry stays, and a later
    subscribe with the same subscriptionId is logged as sent twice and
    dropped. *)
Theorem stream_end_keeps_table_entry key ref s n st :
  subscriptions st !! key = Some ref →
  rx_heap st !! ref = Some s →
  closed s = false →
  is_terminal n = true →
  (∀ err, n = N_error err → is_Some (ToString err)) →
  let r := notify ref n st in
  completion_of r = Normal tt ∧
  trace_of r = trace_of (deliver (createObserver (observer_id s)) n st) ∧
  match n with
  | N_complete =>
      trace_of r =
      send_trace (readyState st)
        (VObject [("type", VString "complete");
                  ("subscriptionId", observer_id s)])
  | N_error err =>
      ∃ text, ToString err = Some text ∧
      trace_of r =
      E_log ("[" +:+ remoteAddr +:+ "] " +:+ text)
      :: send_trace (readyState st)
           (VObject [("type", VString "error"); ("error", err);
                     ("subscriptionId", observer_id s)])
  | N_next _ => False
  end ∧
  rx_heap (state_of r) !! ref = Some (mark_closed s) ∧
  (∀ n', trace_of (notify ref n' (state_of r)) = []) ∧
  subscriptions (state_of r) = subscriptions st ∧
  subscriptions (state_of r) !! key = Some ref ∧
  (∀ data message offset m,
     JSON_parse conn data = Some message →
     Get message "type" = Some (VString "subscribe") →
     Get message "offset" = Some offset →
     is_number offset = true →
     Get message "subscriptionId" = Some (VNumber m) →
     NumberToString m = key →
     onMessage data (state_of r) =
     Result (Normal tt) (state_of r)
       [E_log ("[" +:+ remoteAddr +:+ "] subscriptionId sent twice: "
               +:+ key)]).
Proof.
  intros Hkey Hs Hopen Hterm Herr r.
  assert (∃ tr, r = Result (Normal tt) (close ref st) tr ∧
                deliver (createObserver (observer_id s)) n st =
                Result (Normal tt) st tr ∧
                match n with
                | N_complete =>
                    tr = send_trace (readyState st)
                           (VObject [("type", VString "complete");
                                     ("subscriptionId", observer_id s)])
                | N_error err =>
                    ∃ text, ToString err = Some text ∧
                    tr = E_log ("[" +:+ remoteAddr +:+ "] " +:+ text)
                         :: send_trace (readyState st)
                              (VObject [("type", VString "error");
                                        ("error", err);
                                        ("subscriptionId", observer_id s)])
                | N_next _ => False
                end) as (tr & -> & Hdel & Hshape).
  { subst r. rewrite (notify_open _ _ _ _ Hs Hopen), Hterm.
    destruct n as [batch|err|]; [done| |].
    - destruct (Herr err eq_refl) as [text Htext].
      rewrite !(deliver_error _ _ _ _ Htext). eauto 6.
    - rewrite !deliver_complete. eauto. }
  cbn. rewrite Hdel. cbn.
  assert (rx_heap (close ref st) !! ref = Some (mark_closed s)) as Hheap.
  { cbn. by rewrite lookup_alter_eq, Hs. }
  split; [done|]. split; [done|]. split; [done|]. split; [done|]. split.
  { intros n'. by rewrite (notify_closed _ _ _ _ Hheap). }
  split; [done|]. split; [done|].
  intros data message offset m Hparse Htype Hoff Hnum Hid <-.
  apply (subscribe_duplicate _ _ _ _ _ Hparse Htype Hoff Hnum Hid).
  cbn. rewrite Hkey. eauto.
Qed.

Lemma for_each_eq refs st :
  for_each refs st =
  Result (Normal tt) (foldl (fun s ref => close ref s) st refs)
    (E_unsubscribe <$> refs).
Proof.
  revert st. induction refs as [|ref refs IH]; intros st; [done|].
  cbn [for_each]. unfold unsubscribe.
  erewrite bind_eval; cycle 1.
  { erewrite (bind_eval (emit _)) by done. reflexivity. }
  cbn. by rewrite IH.
Qed.

Lemma sessionId_closes refs st :
  sessionId (foldl (fun s ref => close ref s) st refs) = sessionId st.
Proof.
  revert st. induction refs as [|ref refs IH]; intros st; [done|].
  cbn. by rewrite IH.
Qed.

Lemma cleanup_eq st :
  let refs := (map_to_list (subscriptions st)).*2 in
  cleanup st =
  Result (Normal tt)
    (set_subscriptions ∅ (foldl (fun s ref => close ref s) st refs))
    (E_log ("[" +:+ remoteAddr +:+ "] Closing WebSocket")
     :: (E_unsubscribe <$> refs)
     ++ [E_event (VObject [("type", VString "connection-closed")])
           (event_meta (sessionId st))])%list.
Proof.
  intros refs. unfold cleanup.
  erewrite bind_eval by apply log_eq.
  erewrite bind_eval; cycle 1.
  { erewrite (bind_eval get_state) by done. rewrite prepend_nil.
    apply for_each_eq. }
  cbn. by rewrite sessionId_closes.
Qed.

(** ** Rules for invariants *)

Lemma triple_bind {A B} P R Q X T (m : M A) (k : A → M B) :
  triple P m R X T → (∀ a, triple (R a) (k a) Q X T) →
  triple P (bind m k) Q X T.
Proof.
  intros Hm Hk st HP. destruct (Hm st HP) as [HT Hc]. unfold bind.
  destruct (m st) as [[a|] st' tr]; cbn in *; [|done].
  destruct (Hk a _ Hc) as [HT' Hc'].
  destruct (k a st') as [c st'' tr']. cbn in *.
  split; [by apply Forall_app|done].
Qed.

Lemma keeps_bind {A B} I T (m : M A) (k : A → M B) :
  keeps I T m → (∀ a, keeps I T (k a)) → keeps I T (bind m k).
Proof. apply triple_bind. Qed.

Lemma keeps_ret {A} I T (a : A) : keeps I T (ret a).
Proof. by intros st HI. Qed.

Lemma keeps_throw {A} I T : keeps I T (@throw A).
Proof. by intros st HI. Qed.

Lemma keeps_get I T : keeps I T get_state.
Proof. by intros st HI. Qed.

Lemma keeps_lift {A} I T (o : option A) : keeps I T (lift o).
Proof. intros st HI. by destruct o. Qed.

Lemma keeps_emit I (T : effect → Prop) e : T e → keeps I T (emit e).
Proof. intros He st HI. split; [by repeat constructor|done]. Qed.

Lemma keeps_modify (I : state → Prop) T f :
  (∀ st, I st → I (f st)) → keeps I T (modify f).
Proof. intros Hf st HI. split; [constructor|by apply Hf]. Qed.

Lemma keeps_bind_ret {A B} I T (a : A) (k : A → M B) :
  keeps I T (k a) → keeps I T (bind (ret a) k).
Proof.
  intros Hk st HI. unfold bind. cbn. rewrite prepend_nil. exact (Hk st HI).
Qed.

Lemma keeps_bind_lift {A B} I T (o : option A) (k : A → M B) :
  (∀ a, o = Some a → keeps I T (k a)) → keeps I T (bind (lift o) k).
Proof.
  intros Hk st HI. destruct o as [a|]; [|by split].
  unfold bind. cbn. rewrite prepend_nil. exact (Hk a eq_refl st HI).
Qed.

Lemma keeps_state I T {A} (m : M A) st :
  keeps I T m → I st → I (state_of (m st)).
Proof.
  intros Hm HI. destruct (Hm st HI) as [_ Hc].
  by destruct (completion_of (m st)).
Qed.

Lemma keeps_trace I T {A} (m : M A) st :
  keeps I T m → I st → Forall T (trace_of (m st)).
Proof. intros Hm HI. by destruct (Hm st HI). Qed.

Lemma Forall_any_effect tr : Forall any_effect tr.
Proof. by apply Forall_true. Qed.

(** Breaks a handler into its primitive steps; [special] gets the first go
    at every sub-term. *)
Ltac keeps_step special :=
  lazymatch goal with
  | |- keeps _ _ (if ?b then _ else _) => destruct b
  | |- keeps _ _ (match ?x with _ => _ end) => destruct x
  | |- keeps _ _ (let _ := _ in _) => cbv zeta
  | |- keeps _ _ _ =>
      first
        [ special
        | apply keeps_ret | apply keeps_throw | apply keeps_get
        | apply keeps_lift
        | apply keeps_bind; [|intros ?]
        | apply keeps_emit | apply keeps_modify ]
  end.

Ltac keeps_steps special := repeat keeps_step special.

Lemma for_each_keeps I T refs :
  (∀ ref, T (E_unsubscribe ref)) → (∀ ref st, I st → I (close ref st)) →
  keeps I T (for_each refs).
Proof.
  intros HT HI. induction refs as [|ref refs IH]; cbn; [apply keeps_ret|].
  unfold unsubscribe. keeps_steps ltac:(apply IH); auto.
Qed.

(** ** Subscriptions that no longer deliver *)

Lemma dead_alter ref ref' f st :
  (∀ s, closed s = true → closed (f s) = true) →
  dead ref st → dead ref (set_rx_heap (alter f ref' (rx_heap st)) st).
Proof.
  intros Hf [Hlt Hcl]. split; [done|]. cbn. intros s.
  rewrite lookup_alter. case_decide as Heq; [|by apply Hcl].
  destruct (rx_heap st !! ref) as [s0|] eqn:E; [|by subst; rewrite E].
  subst ref'. rewrite E. cbn. intros [= <-]. by apply Hf, Hcl.
Qed.

Lemma dead_close ref ref' st : dead ref st → dead ref (close ref' st).
Proof. by apply dead_alter. Qed.

Lemma dead_set_name ref ref' v st : dead ref st → dead ref (set_name ref' v st).
Proof. by apply dead_alter. Qed.

Lemma dead_allocate ref v st : dead ref st → dead ref (allocate v st).
Proof.
  intros [Hlt Hcl]. split; cbn; [lia|]. intros s.
  rewrite lookup_insert_ne by lia. apply Hcl.
Qed.

Lemma dead_closed_by ref st :
  ref < next_ref st → dead ref (close ref st).
Proof.
  intros Hlt. split; [done|]. cbn. intros s. rewrite lookup_alter_eq.
  destruct (rx_heap st !! ref); by intros [= <-].
Qed.

Ltac dead_side :=
  try done;
  try (intros;
       first [ by apply dead_close | by apply dead_set_name
             | by apply dead_allocate ]).

Lemma send_keeps I T object :
  (∀ line, T (E_log line)) → T (E_socket_send object) → keeps I T (send object).
Proof.
  intros Hlog Hsend st HI. rewrite send_eq. cbn. split; [|done].
  destruct (readyState st); cbn; by repeat constructor.
Qed.

Lemma deliver_keeps I T subscriptionId n :
  (∀ line, T (E_log line)) → (∀ object, T (E_socket_send object)) →
  keeps I T (deliver (createObserver subscriptionId) n).
Proof.
  intros Hlog Hsend. destruct n; cbn.
  - by apply send_keeps.
  - keeps_steps ltac:(by apply send_keeps). apply Hlog.
  - by apply send_keeps.
Qed.

Lemma notify_keeps I T ref n :
  (∀ line, T (E_log line)) → (∀ object, T (E_socket_send object)) →
  (∀ st, I st → I (close ref st)) →
  keeps I T (notify ref n).
Proof.
  intros Hlog Hsend Hclose. unfold notify.
  keeps_steps ltac:(by apply deliver_keeps). apply Hclose.
Qed.

Lemma deliver_while_open_keeps I T subscriptionId ns :
  (∀ line, T (E_log line)) → (∀ object, T (E_socket_send object)) →
  keeps I T (deliver_while_open (createObserver subscriptionId) ns).
Proof.
  intros Hlog Hsend. induction ns as [|n ns IH]; cbn [deliver_while_open].
  - apply keeps_ret.
  - apply keeps_bind; [by apply deliver_keeps|]. intros _.
    destruct (is_terminal n); [apply keeps_ret|done].
Qed.

Lemma subscribe_keeps I T b subscriptionId :
  (∀ line, T (E_log line)) → (∀ object, T (E_socket_send object)) →
  (∀ ref, T (E_subscribe ref)) →
  (∀ ref st, I st → I (close ref st)) →
  (∀ st, I st → I (allocate subscriptionId st)) →
  keeps I T (subscribe b subscriptionId).
Proof.
  intros Hlog Hsend Hsub Hclose Halloc. unfold subscribe.
  keeps_steps ltac:(solve [apply deliver_while_open_keeps; auto]); auto.
Qed.

Lemma notify_keeps_dead ref ref' n : keeps (dead ref) any_effect (notify ref' n).
Proof. apply notify_keeps; try done. intros st. apply dead_close. Qed.

Lemma step_keeps_dead ref i : keeps (dead ref) any_effect (step i).
Proof.
  destruct i as [data| |ref' n|rs]; cbn.
  - unfold onMessage, parseJSON, on_hello, on_subscribe, on_unsubscribe,
      unsubscribe.
    keeps_steps ltac:(first [ by apply send_keeps
                            | apply subscribe_keeps ]); dead_side.
  - unfold cleanup.
    keeps_steps ltac:(apply for_each_keeps); dead_side.
  - apply notify_keeps_dead.
  - keeps_steps ltac:(fail); dead_side.
Qed.

Lemma notify_dead ref n st :
  dead ref st → trace_of (notify ref n st) = [].
Proof.
  intros [_ Hcl]. destruct (rx_heap st !! ref) as [s|] eqn:E.
  - by rewrite (notify_closed _ _ _ _ E (Hcl _ eq_refl)).
  - by rewrite (notify_unknown _ _ _ E).
Qed.

Lemma run_cons i ins st :
  run (i :: ins) st =
  ((run ins (state_of (step i st))).1,
   (i, trace_of (step i st)) :: (run ins (state_of (step i st))).2).
Proof. cbn. by destruct (run ins (state_of (step i st))). Qed.

(** Once a subscription is dead, no later input makes it deliver. *)
Lemma run_dead_silent ref ins st :
  dead ref st →
  ∀ i tr, (i, tr) ∈ (run ins st).2 → (∃ n, i = In_notify ref n) → tr = [].
Proof.
  revert st. induction ins as [|i0 ins IH]; intros st Hdead i tr Hin Hnotify.
  - by apply elem_of_nil in Hin.
  - rewrite run_cons in Hin. cbn in Hin. apply elem_of_cons in Hin.
    destruct Hin as [[= -> ->]|Hin].
    + destruct Hnotify as [n ->]. cbn. by apply notify_dead.
    + eapply IH; [|done..].
      by apply (keeps_state _ _ _ _ (step_keeps_dead ref i0)).
Qed.

Lemma run_keeps I T ins st :
  Forall (fun i => keeps I T (step i)) ins → I st →
  I (run ins st).1 ∧ ∀ i tr, (i, tr) ∈ (run ins st).2 → Forall T tr.
Proof.
  revert st. induction ins as [|i0 ins IH]; intros st Hall HI.
  - split; [done|]. intros i tr Hin. by apply elem_of_nil in Hin.
  - apply Forall_cons in Hall as [H0 Hall]. rewrite run_cons. cbn.
    destruct (IH _ Hall (keeps_state _ _ _ _ H0 HI)) as [Hst Htr].
    split; [done|]. intros i tr Hin. apply elem_of_cons in Hin.
    destruct Hin as [[= -> ->]|Hin]; [|by eapply Htr].
    by apply (keeps_trace _ _ _ _ H0).
Qed.

(** ** The table only holds allocated references *)

Lemma subscribe_and_store_keeps b subscriptionId name_ key :
  keeps refs_allocated any_effect
    (let* subscription := subscribe b subscriptionId in
     modify (set_name subscription name_) >>
     modify (fun st' =>
               set_subscriptions
                 (<[key := subscription]> (subscriptions st')) st')).
Proof.
  apply triple_bind
    with (R := fun ref st => refs_allocated st ∧ ref < next_ref st).
  - intros st HI. split; [apply Forall_any_effect|].
    destruct (subscribe_cases b subscriptionId st)
      as [[tr ->]|(stopped & tr & ->)]; [done|].
    cbn. split; [|destruct stopped; cbn; lia].
    intros k r Hk. assert (r < next_ref st) as Hlt.
    { apply (HI k). by destruct stopped. }
    destruct stopped; cbn; lia.
  - intros ref st [HI Hlt]. cbn. split; [apply Forall_any_effect|].
    intros k r. cbn. rewrite lookup_insert. case_decide.
    + by intros [= <-].
    + apply HI.
Qed.

Ltac refs_side :=
  try done;
  try (intros ? Hall ? ?; cbn;
       first [ by apply Hall
             | rewrite lookup_delete; case_decide; [done|by apply Hall]
             | intros Hk; apply Hall in Hk; lia ]).

Lemma step_keeps_refs_allocated i : keeps refs_allocated any_effect (step i).
Proof.
  destruct i as [data| |ref' n|rs]; cbn.
  - unfold onMessage, parseJSON, on_hello, on_subscribe, on_unsubscribe,
      unsubscribe.
    keeps_steps ltac:(first [ by apply send_keeps
                            | apply subscribe_and_store_keeps ]); refs_side.
  - unfold cleanup.
    keeps_steps ltac:(apply for_each_keeps); refs_side.
  - by apply notify_keeps.
  - keeps_steps ltac:(fail); refs_side.
Qed.

Lemma refs_allocated_initial rs : refs_allocated (initial rs).
Proof. intros key ref. cbn. by rewrite lookup_empty. Qed.

Lemma closes_keep_dead ref refs st :
  dead ref st → dead ref (foldl (fun s r => close r s) st refs).
Proof.
  revert st. induction refs as [|r refs IH]; intros st Hd; [done|].
  cbn. by apply IH, dead_close.
Qed.

Lemma closes_dead ref refs st :
  ref ∈ refs → ref < next_ref st →
  dead ref (foldl (fun s r => close r s) st refs).
Proof.
  revert st. induction refs as [|r refs IH]; intros st Hin Hlt.
  - by apply elem_of_nil in Hin.
  - cbn. apply elem_of_cons in Hin as [->|Hin].
    + by apply closes_keep_dead, dead_closed_by.
    + by apply IH.
Qed.

Lemma unsubscribed_cancels refs tr :
  unsubscribed ((E_unsubscribe <$> refs) ++ tr) = (refs ++ unsubscribed tr)%list.
Proof. induction refs as [|r refs IH]; [done|]. cbn. by f_equal. Qed.

Lemma socket_sends_cancels refs tr :
  socket_sends ((E_unsubscribe <$> refs) ++ tr) = socket_sends tr.
Proof. induction refs as [|r refs IH]; [done|]. by cbn. Qed.

Lemma events_cancels refs tr :
  events ((E_unsubscribe <$> refs) ++ tr) = events tr.
Proof. induction refs as [|r refs IH]; [done|]. by cbn. Qed.

(** C6. Closing a connection, whatever happened on it before, with [K]
    entries in the subscription table: [cleanup] calls [unsubscribe] on the
    handle of each of the [K] entries, empties the table, emits exactly one
    [connection-closed] domain event and writes nothing to the socket; and
    whatever arrives later, a notification of one of those subscriptions
    has no effect at all, so no envelope is sent for it. *)
Theorem cleanup_cancels_every_subscription rs prior later :
  let st := (run prior (initial rs)).1 in
  let r := cleanup st in
  completion_of r = Normal tt ∧
  unsubscribed (trace_of r) = (map_to_list (subscriptions st)).*2 ∧
  length (unsubscribed (trace_of r)) = size (subscriptions st) ∧
  (∀ key ref, subscriptions st !! key = Some ref →
              ref ∈ unsubscribed (trace_of r)) ∧
  subscriptions (state_of r) = ∅ ∧
  events (trace_of r) =
    [(VObject [("type", VString "connection-closed")],
      event_meta (sessionId st))] ∧
  socket_sends (trace_of r) = [] ∧
  (∀ key ref i tr,
     subscriptions st !! key = Some ref →
     (i, tr) ∈ (run later (state_of r)).2 →
     (∃ n, i = In_notify ref n) →
     tr = []).
Proof.
  intros st r.
  assert (refs_allocated st) as Hall.
  { apply (run_keeps refs_allocated any_effect prior (initial rs)).
    - apply Forall_true. intros i. apply step_keeps_refs_allocated.
    - apply refs_allocated_initial. }
  assert (∀ key ref, subscriptions st !! key = Some ref →
                     ref ∈ (map_to_list (subscriptions st)).*2) as Hrefs.
  { intros key ref Hk. apply list_elem_of_fmap. exists (key, ref).
    split; [done|]. by apply elem_of_map_to_list. }
  subst r. rewrite cleanup_eq. cbn.
  rewrite unsubscribed_cancels, socket_sends_cancels, events_cancels. cbn.
  rewrite app_nil_r.
  split; [done|]. split; [done|].
  split; [by rewrite length_fmap, length_map_to_list|].
  split; [done|]. split; [done|]. split; [done|]. split; [done|].
  intros key ref i tr Hk. apply run_dead_silent.
  destruct (closes_dead ref _ st (Hrefs _ _ Hk) (Hall _ _ Hk)) as [Hlt Hcl].
  by split.
Qed.

(** C7, as the code has it.  With an empty table [cleanup] cancels nothing,
    writes nothing to the socket and leaves the state as it is, but it is
    not silent: it logs "Closing WebSocket" and emits one
    [connection-closed] domain event, as it does for any table. *)
Theorem cleanup_empty_table st :
  subscriptions st = ∅ →
  let r := cleanup st in
  completion_of r = Normal tt ∧
  unsubscribed (trace_of r) = [] ∧
  socket_sends (trace_of r) = [] ∧
  state_of r = st ∧
  trace_of r =
    [E_log ("[" +:+ remoteAddr +:+ "] Closing WebSocket");
     E_event (VObject [("type", VString "connection-closed")])
       (event_meta (sessionId st))] ∧
  events (trace_of r) =
    [(VObject [("type", VString "connection-closed")],
      event_meta (sessionId st))].
Proof.
  intros Hempty r. subst r. rewrite cleanup_eq, Hempty, map_to_list_empty.
  cbn. repeat split. destruct st. cbn in *. by subst.
Qed.

(** ** Rejected messages *)

Lemma logged_is_dropped st line :
  silently_dropped st (Result (Normal tt) st [E_log line]).
Proof.
  repeat split; try done. exists line. cbn. apply list_elem_of_here.
Qed.

Lemma on_unsubscribe_rejects message subscriptionId key st :
  Get message "subscriptionId" = Some subscriptionId →
  ToPropertyKey subscriptionId = Some key →
  subscriptions st !! key = None ∨ is_number subscriptionId = false →
  ∃ line, on_unsubscribe message st = Result (Normal tt) st [E_log line].
Proof.
  intros Hid Hkey Hbad. unfold on_unsubscribe, bind. rewrite Hid. cbn.
  rewrite Hkey. cbn.
  destruct (has_property (subscriptions st) key) eqn:Ehas; cbn; [|eauto].
  destruct (is_number subscriptionId) eqn:Enum; cbn; [|eauto].
  destruct Hbad as [Hnone|?]; [|done].
  apply is_number_inv in Enum as [n ->].
  rewrite (number_key_own _ _ _ Hkey), Hnone in Ehas.
  rewrite bool_decide_eq_false_2 in Ehas; [done|by intros [? ?]].
Qed.

Lemma on_subscribe_rejects message subscriptionId st :
  is_nullish message = false →
  Get message "subscriptionId" = Some subscriptionId →
  is_number subscriptionId = false ∨
  (∃ n, subscriptionId = VNumber n ∧
        is_Some (subscriptions st !! NumberToString n)) →
  ∃ line, on_subscribe message st = Result (Normal tt) st [E_log line].
Proof.
  intros Hobj Hid Hbad. unfold on_subscribe, bind.
  destruct (Get_defined message "offset" Hobj) as [offset ->]. cbn.
  destruct (is_number offset); cbn; [|eauto].
  rewrite Hid. cbn. destruct Hbad as [->|(n & -> & Htaken)]; cbn; [eauto|].
  rewrite has_property_number, bool_decide_eq_true_2 by done. eauto.
Qed.

(** C1, as the code has it.  A message that does not parse (or parses to
    [null]), has no string [type], has an unknown [type], is a [hello]
    without a string sessionId, a [subscribe] with a non-numeric offset or
    subscriptionId or with a subscriptionId already in the table, or an
    [unsubscribe] whose subscriptionId is not in the table or not a number,
    is logged and dropped: the handler returns, nothing is written to the
    socket, no domain event is emitted, nothing is cancelled, and the state
    of the connection, its table included, is unchanged.  The [name] of a
    subscribe is not validated and is not part of this list. *)
Theorem protocol_errors_are_dropped data st :
  protocol_error st (JSON_parse conn data) →
  silently_dropped st (onMessage data st).
Proof.
  intros Herr.
  assert ((∃ line, onMessage data st = Result (Normal tt) st [E_log line]) ∨
          (∃ line, onMessage data st =
                   Result (Normal tt) st [E_console_exception; E_log line]))
    as [[line ->]|[line ->]]; [|apply logged_is_dropped|].
  2: { repeat split; try done. exists line. cbn. apply list_elem_of_further,
       list_elem_of_here. }
  inversion Herr as [Hp|message Hnull Hp|message type Htype Hstr Hp
                    |message t Htype Hh Hs Hu Hp|message sid Htype Hsid Hstr Hp
                    |message offset Htype Hoff Hnum Hp
                    |message id Htype Hid Hnum Hp|message n Htype Hid Htaken Hp
                    |message id key Htype Hid Hkey Hnone Hp
                    |message id key Htype Hid Hkey Hnum Hp];
    symmetry in Hp.
  - right. unfold onMessage, parseJSON, bind. rewrite Hp. cbn. eauto.
  - left. unfold onMessage, parseJSON, bind. rewrite Hp. cbn.
    rewrite Hnull. cbn. eauto.
  - left. unfold onMessage, parseJSON, bind. rewrite Hp. cbn.
    rewrite (Get_Some_not_nullish _ _ _ Htype), Htype. cbn.
    destruct type; try done; cbn; eauto.
  - left. rewrite (onMessage_dispatch _ _ _ _ Hp Htype).
    apply String.eqb_neq in Hh, Hs, Hu. rewrite Hh, Hs, Hu.
    rewrite log_eq. eauto.
  - left. rewrite (onMessage_dispatch _ _ _ _ Hp Htype). cbn.
    unfold on_hello, bind. rewrite Hsid. cbn. rewrite Hstr. cbn. eauto.
  - left. rewrite (onMessage_dispatch _ _ _ _ Hp Htype). cbn.
    unfold on_subscribe, bind. rewrite Hoff. cbn. rewrite Hnum. cbn. eauto.
  - left. rewrite (onMessage_dispatch _ _ _ _ Hp Htype). cbn.
    apply (on_subscribe_rejects _ _ _ (Get_Some_not_nullish _ _ _ Htype) Hid).
    by left.
  - left. rewrite (onMessage_dispatch _ _ _ _ Hp Htype). cbn.
    apply (on_subscribe_rejects _ _ _ (Get_Some_not_nullish _ _ _ Htype) Hid).
    right. eauto.
  - left. rewrite (onMessage_dispatch _ _ _ _ Hp Htype). cbn.
    apply (on_unsubscribe_rejects _ _ _ _ Hid Hkey). by left.
  - left. rewrite (onMessage_dispatch _ _ _ _ Hp Htype). cbn.
    apply (on_unsubscribe_rejects _ _ _ _ Hid Hkey). by right.
Qed.

(** ** The session id before a hello *)

Lemma insertEvent_null ev : keeps session_null null_meta (insertEvent ev).
Proof.
  intros st Hnull. split; [|done]. cbn. repeat constructor.
  intros ev' meta [= <- <-]. by rewrite Hnull.
Qed.

Lemma insertEvent_fixed I ev : keeps I fixed_meta (insertEvent ev).
Proof.
  intros st HI. split; [|done]. cbn. repeat constructor.
  intros ev' meta [= <- <-]. eauto.
Qed.

Ltac meta_side := try done; try by intros ? ? [=].

Lemma onMessage_keeps_null data :
  ¬ valid_hello data → keeps session_null null_meta (onMessage data).
Proof.
  intros Hno. unfold onMessage, parseJSON.
  destruct (JSON_parse conn data) as [message|] eqn:Hparse.
  2: { intros st Hnull. unfold bind. cbn. split; [|done].
       repeat constructor; by intros ? ? [=]. }
  apply keeps_bind_ret. destruct (is_nullish message); [by apply keeps_emit|].
  apply keeps_bind_lift. intros type Htype.
  destruct type as [| | | |t| |]; try by apply keeps_emit.
  destruct (String.eqb t "hello") eqn:Ehello.
  { apply String.eqb_eq in Ehello as ->. unfold on_hello.
    apply keeps_bind_lift. intros sid Hsid.
    destruct (is_string sid) eqn:Estr; cbn; [|by apply keeps_emit].
    apply is_string_inv in Estr as [s ->]. destruct Hno. by exists message, s. }
  unfold on_subscribe, on_unsubscribe, unsubscribe.
  keeps_steps ltac:(first [ by apply send_keeps
                          | apply subscribe_keeps ]); meta_side.
Qed.

Lemma step_keeps_null i : not_hello i → keeps session_null null_meta (step i).
Proof.
  intros Hno. destruct i as [data| |ref n|rs]; cbn.
  - by apply onMessage_keeps_null, Hno.
  - unfold cleanup.
    keeps_steps ltac:(first [ apply insertEvent_null
                            | apply for_each_keeps ]); meta_side.
  - apply notify_keeps; meta_side.
  - by apply keeps_modify.
Qed.

Lemma step_keeps_fixed i : keeps (fun _ => True) fixed_meta (step i).
Proof.
  destruct i as [data| |ref n|rs]; cbn.
  - unfold onMessage, parseJSON, on_hello, on_subscribe, on_unsubscribe,
      unsubscribe.
    keeps_steps ltac:(first [ apply insertEvent_fixed
                            | by apply send_keeps
                            | apply subscribe_keeps ]); meta_side.
  - unfold cleanup.
    keeps_steps ltac:(first [ apply insertEvent_fixed
                            | apply for_each_keeps ]); meta_side.
  - apply notify_keeps; meta_side.
  - by apply keeps_modify.
Qed.

Lemma calls_send_trace rs object : calls (send_trace rs object) = [].
Proof. by destruct rs. Qed.

Lemma calls_app tr tr' : calls (tr ++ tr') = (calls tr ++ calls tr')%list.
Proof. apply omap_app. Qed.

Lemma calls_none tr : Forall no_call tr → calls tr = [].
Proof.
  induction 1 as [|e tr He _ IH]; [done|]. cbn.
  destruct e; try done. by destruct (He key offset session).
Qed.

Lemma subscribe_no_call b subscriptionId st :
  Forall no_call (trace_of (subscribe b subscriptionId st)).
Proof.
  apply (keeps_trace (fun _ => True) no_call); [|done].
  by apply subscribe_keeps.
Qed.

(** An accepted subscribe invokes the factory once, with the current
    session id. *)
Lemma subscribe_calls_factory data message offset n name_ key f st :
  JSON_parse conn data = Some message →
  Get message "type" = Some (VString "subscribe") →
  Get message "offset" = Some offset →
  is_number offset = true →
  Get message "subscriptionId" = Some (VNumber n) →
  subscriptions st !! NumberToString n = None →
  Get message "name" = Some name_ →
  ToPropertyKey name_ = Some key →
  observables conn key = Prop_function f →
  ∃ tr, trace_of (onMessage data st) =
        E_log ("[" +:+ remoteAddr +:+ "] subscribing to " +:+ key)
        :: E_call key offset (sessionId st) :: tr ∧
        calls tr = [].
Proof.
  intros Hparse Htype Hoff Hnum Hid Hfree Hname Hkey Hcat.
  rewrite (onMessage_dispatch _ _ _ _ Hparse Htype). cbn.
  rewrite (on_subscribe_lookup _ _ _ _ _ _ Hoff Hnum Hid Hfree Hname Hkey).
  rewrite Hcat. cbn.
  destruct (f offset (sessionId st)) as [observable|]; cbn; [|by eexists].
  destruct (produced_truthy observable && has_subscribe observable).
  - cbv zeta.
    set (b := if isArray (produced_array observable)
              then Observable_of (produced_array observable)
              else Rewrapped (produced_inside observable)).
    pose proof (subscribe_no_call b (VNumber n) st) as Hnone.
    destruct (subscribe_cases b (VNumber n) st)
      as [[tr Hs]|(stopped & tr & Hs)]; rewrite Hs in Hnone; cbn in Hnone.
    + rewrite (bind_throws _ _ _ _ _ Hs). cbn. eexists. split; [done|].
      by apply calls_none.
    + rewrite (bind_eval _ _ _ _ _ _ Hs). cbn. eexists. split; [done|].
      rewrite app_nil_r. by apply calls_none.
  - unfold ToPropertyKey in Hkey. unfold bind. rewrite Hkey. cbn.
    destruct (produced_ToString observable) as [got|]; cbn; [|by eexists].
    rewrite send_eq. cbn. eexists. split; [done|]. cbn.
    apply calls_send_trace.
Qed.

(** An accepted subscribe to a stream stores the new subscription, provided
    the observer can handle what a batched stream hands over at once. *)
Lemma subscribe_stream_stored
    data message offset n name_ key f array inside st :
  JSON_parse conn data = Some message →
  Get message "type" = Some (VString "subscribe") →
  Get message "offset" = Some offset →
  is_number offset = true →
  Get message "subscriptionId" = Some (VNumber n) →
  subscriptions st !! NumberToString n = None →
  Get message "name" = Some name_ →
  ToPropertyKey name_ = Some key →
  observables conn key = Prop_function f →
  f offset (sessionId st) = Returned (Source array inside) →
  (isArray array = false → Forall prints inside) →
  completion_of (onMessage data st) = Normal tt ∧
  subscriptions (state_of (onMessage data st)) =
  <[NumberToString n := next_ref st]> (subscriptions st).
Proof.
  intros Hparse Htype Hoff Hnum Hid Hfree Hname Hkey Hcat Hcall Hinside.
  rewrite (onMessage_dispatch _ _ _ _ Hparse Htype). cbn.
  rewrite (on_subscribe_lookup _ _ _ _ _ _ Hoff Hnum Hid Hfree Hname Hkey).
  rewrite Hcat, Hcall. cbn. destruct (isArray array).
  - erewrite bind_eval by apply subscribe_of. by cbn.
  - erewrite bind_eval by (apply subscribe_prints; auto). cbn.
    by destruct (existsb is_terminal inside).
Qed.

(** C10. As long as no valid [hello] has been handled on a connection, the
    session id is [null]: every domain event emitted so far has the meta
    [{connectionId, sessionId: null, ipAddress}] with the connection's
    connectionId and remote address, and a valid subscribe is accepted all
    the same, its factory being invoked once with the session id [null] (a
    stream it returns is stored in the table, unless its observer throws on
    what the stream hands over at once).  Whatever the inputs and the state,
    the [meta] of every domain event is an object of those three properties
    whose connectionId and ipAddress are the connection's own. *)
Theorem session_is_null_before_hello rs prior :
  Forall not_hello prior →
  let st := (run prior (initial rs)).1 in
  sessionId st = VNull ∧
  (∀ i tr ev meta,
     (i, tr) ∈ (run prior (initial rs)).2 → E_event ev meta ∈ tr →
     meta = VObject [("connectionId", connectionId conn);
                     ("sessionId", VNull);
                     ("ipAddress", VString remoteAddr)] ∧
     Get meta "sessionId" = Some VNull) ∧
  (∀ data message offset n name_ key f,
     JSON_parse conn data = Some message →
     Get message "type" = Some (VString "subscribe") →
     Get message "offset" = Some offset →
     is_number offset = true →
     Get message "subscriptionId" = Some (VNumber n) →
     subscriptions st !! NumberToString n = None →
     Get message "name" = Some name_ →
     ToPropertyKey name_ = Some key →
     observables conn key = Prop_function f →
     calls (trace_of (onMessage data st)) = [(key, offset, VNull)] ∧
     (∀ array inside,
        f offset VNull = Returned (Source array inside) →
        (isArray array = false → Forall prints inside) →
        completion_of (onMessage data st) = Normal tt ∧
        subscriptions (state_of (onMessage data st))
        !! NumberToString n = Some (next_ref st))) ∧
  (∀ ins st0 i tr ev meta,
     (i, tr) ∈ (run ins st0).2 → E_event ev meta ∈ tr →
     (∃ sid, meta = VObject [("connectionId", connectionId conn);
                             ("sessionId", sid);
                             ("ipAddress", VString remoteAddr)]) ∧
     Get meta "connectionId" = Some (connectionId conn) ∧
     Get meta "ipAddress" = Some (VString remoteAddr)).
Proof.
  intros Hno st.
  destruct (run_keeps session_null null_meta prior (initial rs))
    as [Hnull Hmeta].
  { eapply Forall_impl; [exact Hno|]. intros i. apply step_keeps_null. }
  { done. }
  fold st in Hnull. unfold session_null in Hnull.
  split; [done|]. split.
  { intros i tr ev meta Hin Hev. specialize (Hmeta i tr Hin).
    rewrite Forall_forall in Hmeta.
    by rewrite (Hmeta _ Hev ev meta eq_refl). }
  split.
  { intros data message offset n name_ key f
           Hparse Htype Hoff Hnum Hid Hfree Hname Hkey Hcat.
    split.
    - destruct (subscribe_calls_factory _ _ _ _ _ _ _ _ Hparse Htype Hoff Hnum
                  Hid Hfree Hname Hkey Hcat) as (tr & -> & Hcalls).
      unfold calls in *. cbn. by rewrite Hcalls, Hnull.
    - intros array inside Hcall Hinside. rewrite <- Hnull in Hcall.
      destruct (subscribe_stream_stored _ _ _ _ _ _ _ _ _ _ Hparse Htype Hoff
                  Hnum Hid Hfree Hname Hkey Hcat Hcall Hinside)
        as [Hc Htable].
      split; [done|]. by rewrite Htable, lookup_insert_eq. }
  intros ins st0 i tr ev meta Hin Hev.
  destruct (run_keeps (fun _ => True) fixed_meta ins st0) as [_ Hfixed].
  { apply Forall_true. intros i0. apply step_keeps_fixed. }
  { done. }
  specialize (Hfixed i tr Hin). rewrite Forall_forall in Hfixed.
  destruct (Hfixed _ Hev ev meta eq_refl) as [sid ->].
  split; [by exists sid|done].
Qed.

(** ** What every handler keeps *)

(** The objects the handler passes to [send]: the three envelopes of an
    observer and the error reply of the subscribe case. *)
Inductive envelope : value → Prop :=
  | Env_events batch subscriptionId :
      envelope (VObject [("type", VString "events"); ("batch", batch);
                         ("subscriptionId", subscriptionId)])
  | Env_error err subscriptionId :
      envelope (VObject [("type", VString "error"); ("error", err);
                         ("subscriptionId", subscriptionId)])
  | Env_complete subscriptionId :
      envelope (VObject [("type", VString "complete");
                         ("subscriptionId", subscriptionId)])
  | Env_reply subscriptionId code text :
      envelope (error_envelope subscriptionId code text).

(** The calls a handler can make on its collaborators. *)
Inductive emitted : effect → Prop :=
  | Em_console_exception : emitted E_console_exception
  | Em_console_error text : emitted (E_console_error text)
  | Em_log message :
      emitted (E_log ("[" +:+ remoteAddr +:+ "] " +:+ message))
  | Em_send object : envelope object → emitted (E_socket_send object)
  | Em_event type_ sid :
      emitted (E_event (VObject [("type", VString type_)]) (event_meta sid))
  | Em_call key offset sid : emitted (E_call key offset sid)
  | Em_subscribe ref : emitted (E_subscribe ref)
  | Em_unsubscribe ref : emitted (E_unsubscribe ref).

(** The table and the store agree: an entry refers to an allocated
    subscription object whose observer carries the number that spells the
    entry's key, and whose [name] can be printed. *)
Definition consistent (st : state) : Prop :=
  ∀ key ref,
    subscriptions st !! key = Some ref →
    ref < next_ref st ∧
    ∃ s n, rx_heap st !! ref = Some s ∧ observer_id s = VNumber n ∧
           NumberToString n = key ∧ is_Some (ToString (name s)).

Definition session_is (v : value) (st : state) : Prop := sessionId st = v.

Definition meta_is (v : value) (e : effect) : Prop :=
  ∀ ev meta, e = E_event ev meta → meta = event_meta v.

Definition null_or_string (v : value) : Prop :=
  v = VNull ∨ ∃ s, v = VString s.

Definition no_socket_send (e : effect) : Prop :=
  ∀ payload, e ≠ E_socket_send payload.

Definition no_event (e : effect) : Prop :=
  ∀ ev meta, e ≠ E_event ev meta.

(** [key] is an own property of the object [v]. *)
Definition has_own_property (v : value) (key : string) : Prop :=
  match v with
  | VObject props => is_Some (own_property props key)
  | _ => False
  end.

(** A handler that leaves the state alone, one that always returns, and one
    that leaves the state alone whenever it throws. *)
Definition still {A} (m : M A) : Prop := ∀ st, state_of (m st) = st.

Definition returns {A} (m : M A) : Prop :=
  ∀ st, ∃ a, completion_of (m st) = Normal a.

Definition exception_safe {A} (m : M A) : Prop :=
  ∀ st, completion_of (m st) = Thrown → state_of (m st) = st.

(** The effects of a run, in order. *)
Definition effects_of (steps : list (input * list effect)) : list effect :=
  concat (steps.*2).

Section Kept.
Variables (Inv : state → Prop) (T : effect → Prop).
Hypothesis Hlog : ∀ message, keeps Inv T (log message).
Hypothesis Hsend : ∀ object, envelope object → keeps Inv T (send object).
Hypothesis Hevent :
  ∀ type_, keeps Inv T (insertEvent (VObject [("type", VString type_)])).
Hypothesis Hconsole : T E_console_exception.
Hypothesis Hconsole_error : ∀ text, T (E_console_error text).
Hypothesis Hcall : ∀ key offset sid, T (E_call key offset sid).
Hypothesis Hsubscribe : ∀ ref, T (E_subscribe ref).
Hypothesis Hunsubscribe : ∀ ref, T (E_unsubscribe ref).
Hypothesis Hclose : ∀ ref st, Inv st → Inv (close ref st).
Hypothesis Hallocate : ∀ v st, Inv st → Inv (allocate v st).
Hypothesis Hset_name : ∀ ref v st, Inv st → Inv (set_name ref v st).
Hypothesis Hinsert :
  ∀ key ref st,
    Inv st → Inv (set_subscriptions (<[key := ref]> (subscriptions st)) st).
Hypothesis Hdelete :
  ∀ key st, Inv st → Inv (set_subscriptions (delete key (subscriptions st)) st).
Hypothesis Hclear : ∀ st, Inv st → Inv (set_subscriptions ∅ st).
Hypothesis Hsession : ∀ v st, Inv st → Inv (set_sessionId v st).
Hypothesis Hstore :
  ∀ b n name_ text,
    ToString name_ = Some text →
    keeps Inv T
      (let* subscription := subscribe b (VNumber n) in
       modify (set_name subscription name_) >>
       modify (fun st' =>
                 set_subscriptions
                   (<[NumberToString n := subscription]> (subscriptions st'))
                   st')).

Lemma deliver_kept subscriptionId n :
  keeps Inv T (deliver (createObserver subscriptionId) n).
Proof.
  destruct n; cbn.
  - apply Hsend. constructor.
  - keeps_steps ltac:(first [ apply Hlog | apply Hsend; constructor ]).
  - apply Hsend. constructor.
Qed.

Lemma notify_kept ref n : keeps Inv T (notify ref n).
Proof.
  unfold notify. keeps_steps ltac:(apply deliver_kept). apply Hclose.
Qed.

Lemma deliver_while_open_kept subscriptionId ns :
  keeps Inv T (deliver_while_open (createObserver subscriptionId) ns).
Proof.
  induction ns as [|n ns IH]; cbn [deliver_while_open]; [apply keeps_ret|].
  apply keeps_bind; [apply deliver_kept|]. intros _.
  destruct (is_terminal n); [apply keeps_ret|done].
Qed.

Lemma subscribe_kept b subscriptionId : keeps Inv T (subscribe b subscriptionId).
Proof.
  unfold subscribe. keeps_steps ltac:(apply deliver_while_open_kept); auto.
Qed.

(** The common case of [Hstore]. *)
Lemma store_kept b subscriptionId name_ key :
  keeps Inv T
    (let* subscription := subscribe b subscriptionId in
     modify (set_name subscription name_) >>
     modify (fun st' =>
               set_subscriptions
                 (<[key := subscription]> (subscriptions st')) st')).
Proof. keeps_steps ltac:(apply subscribe_kept); auto. Qed.

Lemma cleanup_kept : keeps Inv T cleanup.
Proof.
  unfold cleanup.
  keeps_steps ltac:(first [ apply Hlog | apply Hevent
                          | apply for_each_keeps ]); auto.
Qed.

Lemma on_hello_kept message : keeps Inv T (on_hello message).
Proof.
  unfold on_hello.
  keeps_steps ltac:(first [ apply Hlog | apply Hevent ]); auto.
Qed.

(** A [hello] without a string sessionId only logs. *)
Lemma on_hello_invalid_kept data message :
  JSON_parse conn data = Some message →
  Get message "type" = Some (VString "hello") →
  ¬ valid_hello data →
  keeps Inv T (on_hello message).
Proof.
  intros Hparse Htype Hno. unfold on_hello.
  apply keeps_bind_lift. intros sid Hsid.
  destruct (is_string sid) eqn:Estr; cbn; [|apply Hlog].
  apply is_string_inv in Estr as [s ->]. destruct Hno. by exists message, s.
Qed.

Lemma on_unsubscribe_kept message : keeps Inv T (on_unsubscribe message).
Proof.
  unfold on_unsubscribe, unsubscribe.
  keeps_steps ltac:(apply Hlog); auto.
Qed.

Lemma on_subscribe_kept message : keeps Inv T (on_subscribe message).
Proof.
  unfold on_subscribe.
  apply keeps_bind_lift. intros offset _.
  destruct (is_number offset); cbn; [|apply Hlog].
  apply keeps_bind_lift. intros subscriptionId _.
  destruct (is_number subscriptionId) eqn:Enum; cbn; [|apply Hlog].
  apply is_number_inv in Enum as [n ->].
  apply keeps_bind_lift. intros key [= <-].
  apply keeps_bind; [apply keeps_get|]. intros st.
  destruct (has_property (subscriptions st) (NumberToString n)); [apply Hlog|].
  apply keeps_bind_lift. intros name_ _.
  apply keeps_bind_lift. intros name_key Hname_key. cbv zeta.
  apply keeps_bind; [keeps_steps ltac:(apply Hlog)|]. intros _.
  destruct (property_truthy (observables conn name_key));
    [|apply Hsend; constructor].
  destruct (observables conn name_key) as [v|f]; [apply keeps_throw|].
  apply keeps_bind; [apply keeps_emit, Hcall|]. intros _.
  destruct (f offset (sessionId st)) as [observable|]; [|apply keeps_throw].
  destruct (produced_truthy observable && has_subscribe observable).
  - cbv zeta. by apply Hstore with (text := name_key).
  - keeps_steps ltac:(apply Hsend; constructor). apply Hconsole_error.
Qed.

Lemma onMessage_kept data :
  (∀ message,
     JSON_parse conn data = Some message →
     Get message "type" = Some (VString "hello") →
     keeps Inv T (on_hello message)) →
  keeps Inv T (onMessage data).
Proof.
  intros Hhello. unfold onMessage, parseJSON.
  destruct (JSON_parse conn data) as [message|] eqn:Hparse.
  - apply keeps_bind_ret. destruct (is_nullish message); [apply Hlog|].
    apply keeps_bind_lift. intros type Htype.
    destruct type as [| | | |t| |]; try apply Hlog.
    destruct (String.eqb t "hello") eqn:Ehello.
    { apply String.eqb_eq in Ehello as ->. by apply Hhello. }
    destruct (String.eqb t "subscribe"); [apply on_subscribe_kept|].
    destruct (String.eqb t "unsubscribe"); [apply on_unsubscribe_kept|].
    apply Hlog.
  - intros st HI. unfold bind. cbn.
    destruct (Hlog "Error parsing JSON" st HI) as [Hline _]. cbn in Hline.
    split; [by constructor|done].
Qed.

End Kept.

(** ** Every effect of every handler *)

Lemma log_emitted Inv message : keeps Inv emitted (log message).
Proof. apply keeps_emit. constructor. Qed.

Lemma send_emitted Inv object :
  envelope object → keeps Inv emitted (send object).
Proof.
  intros Henv st HI. rewrite send_eq. cbn. split; [|done].
  destruct (readyState st); repeat constructor; done.
Qed.

Lemma insertEvent_emitted Inv type_ :
  keeps Inv emitted (insertEvent (VObject [("type", VString type_)])).
Proof. intros st HI. cbn. split; [|done]. repeat constructor. Qed.

Lemma step_emitted i : keeps (fun _ => True) emitted (step i).
Proof.
  assert (∀ b n name_ text,
            ToString name_ = Some text →
            keeps (fun _ : state => True) emitted
              (let* subscription := subscribe b (VNumber n) in
               modify (set_name subscription name_) >>
               modify (fun st' =>
                         set_subscriptions
                           (<[NumberToString n := subscription]>
                              (subscriptions st')) st'))) as Hstore.
  { intros b n name_ text _.
    apply store_kept; try done; try (by constructor);
      first [ apply log_emitted | by apply send_emitted ]. }
  destruct i as [data| |ref n|rs]; cbn.
  - apply onMessage_kept; try done; try (by constructor);
      try apply log_emitted; try (by apply send_emitted).
    intros message _ _.
    apply on_hello_kept; try done;
      first [ apply log_emitted | apply insertEvent_emitted ].
  - apply cleanup_kept; try done; try (by constructor);
      first [ apply log_emitted | apply insertEvent_emitted ].
  - apply notify_kept; try done;
      first [ apply log_emitted | by apply send_emitted ].
  - by apply keeps_modify.
Qed.

(** X9. Whatever the input and the state, every object a handler writes
    to the socket is one of the protocol's envelopes: it has a [type] of
    [events], [error] or [complete] and a [subscriptionId]. *)
Theorem every_frame_is_an_envelope i st payload :
  E_socket_send payload ∈ trace_of (step i st) →
  envelope payload ∧
  (∃ t, Get payload "type" = Some (VString t) ∧
        t ∈ ["events"; "error"; "complete"]) ∧
  has_own_property payload "subscriptionId".
Proof.
  intros Hin.
  pose proof (keeps_trace _ _ _ st (step_emitted i) Logic.I) as Hall.
  rewrite Forall_forall in Hall. specialize (Hall _ Hin).
  inversion Hall as [| | |object Henv| | | |]; subst.
  split; [done|].
  destruct Henv; cbn; (split; [eexists; split; [done|set_solver]|eauto]).
Qed.

(** The address is the forwarded one when the request carries a header
    that is not empty. *)
Lemma remoteAddr_eq :
  remoteAddr =
  match x_forwarded_for conn with
  | Some (String c rest) => String c rest
  | _ => remoteAddress conn
  end.
Proof. unfold remoteAddr. by destruct (x_forwarded_for conn) as [[|c rest]|]. Qed.

(** X10. The connection has one peer address for everything it reports:
    the [x-forwarded-for] header of the upgrade request when there is one
    and it is not empty, and the socket's remote address otherwise.
    Whatever the input and the state, every line a handler hands to the log
    subject starts with that address in brackets, and every domain event
    carries the same address as [meta.ipAddress]. *)
Theorem every_log_line_names_the_peer i st :
  let peer :=
    match x_forwarded_for conn with
    | Some (String c rest) => String c rest
    | _ => remoteAddress conn
    end in
  (∀ line,
     E_log line ∈ trace_of (step i st) →
     ∃ message, line = "[" +:+ peer +:+ "] " +:+ message) ∧
  (∀ ev meta,
     E_event ev meta ∈ trace_of (step i st) →
     Get meta "ipAddress" = Some (VString peer)).
Proof.
  intros peer. subst peer. rewrite <- remoteAddr_eq.
  pose proof (keeps_trace _ _ _ st (step_emitted i) Logic.I) as Hall.
  rewrite Forall_forall in Hall.
  split.
  - intros line Hin. specialize (Hall _ Hin). inversion Hall; subst. eauto.
  - intros ev meta Hin. specialize (Hall _ Hin). by inversion Hall; subst.
Qed.

(** ** A socket that is not open *)

Lemma socket_sends_none tr : Forall no_socket_send tr → socket_sends tr = [].
Proof.
  induction 1 as [|e tr He _ IH]; [done|]. cbn.
  destruct e; try done. by destruct (He payload).
Qed.

Lemma events_none tr : Forall no_event tr → events tr = [].
Proof.
  induction 1 as [|e tr He _ IH]; [done|]. cbn.
  destruct e; try done. by destruct (He event meta).
Qed.

Lemma send_not_open rs object :
  rs ≠ OPEN →
  keeps (fun st => readyState st = rs) no_socket_send (send object).
Proof.
  intros Hrs st HI. rewrite send_eq, HI. cbn. split; [|done].
  destruct rs; try done; by repeat constructor.
Qed.

Lemma step_not_open rs i :
  rs ≠ OPEN → (∀ rs', i ≠ In_readyState rs') →
  keeps (fun st => readyState st = rs) no_socket_send (step i).
Proof.
  intros Hrs Hi.
  assert (∀ message,
            keeps (fun st => readyState st = rs) no_socket_send (log message))
    as Hlog by (intros; by apply keeps_emit).
  assert (∀ type_,
            keeps (fun st => readyState st = rs) no_socket_send
              (insertEvent (VObject [("type", VString type_)]))) as Hevent.
  { intros type_ st HI. cbn. split; [|done]. by repeat constructor. }
  destruct i as [data| |ref n|rs']; cbn.
  - apply onMessage_kept; try done.
    + intros object _. by apply send_not_open.
    + intros b n name_ text _. apply store_kept; try done.
      intros object _. by apply send_not_open.
    + intros message _ _. by apply on_hello_kept.
  - by apply cleanup_kept.
  - apply notify_kept; try done. intros object _. by apply send_not_open.
  - by destruct (Hi rs').
Qed.

(** X8. While the socket is not open ([readyState] other than 1), no
    handler writes to it: messages, stream notifications and the close
    handler leave the socket alone, whatever they were going to send. *)
Theorem nothing_is_written_unless_open i st :
  readyState st ≠ OPEN →
  socket_sends (trace_of (step i st)) = [].
Proof.
  intros Hrs.
  assert ((∃ rs', i = In_readyState rs') ∨ ∀ rs', i ≠ In_readyState rs')
    as [[rs' ->]|Hi] by (destruct i; eauto).
  { done. }
  apply socket_sends_none.
  apply (keeps_trace (fun st' => readyState st' = readyState st) _ _ st);
    [|done].
  by apply step_not_open.
Qed.

(** ** Where domain events come from *)

Lemma step_no_event i :
  not_hello i → i ≠ In_close →
  keeps (fun _ => True) no_event (step i).
Proof.
  intros Hno Hclose.
  assert (∀ message, keeps (fun _ : state => True) no_event (log message))
    as Hlog by (intros; by apply keeps_emit).
  assert (∀ object, envelope object →
                    keeps (fun _ : state => True) no_event (send object))
    as Hsend by (intros; by apply send_keeps).
  destruct i as [data| |ref n|rs']; cbn.
  - apply onMessage_kept; try done.
    + intros b n name_ text _. by apply store_kept.
    + intros message Hparse Htype.
      by apply (on_hello_invalid_kept _ _ Hlog data), Hno.
  - done.
  - by apply notify_kept.
  - by apply keeps_modify.
Qed.

(** X12. Domain events come from two places only: an accepted [hello] and
    the close handler.  No other message (a subscribe, an unsubscribe, a
    rejected [hello], anything malformed) and no stream notification emits
    one. *)
Theorem only_hello_and_close_emit_events i st :
  not_hello i → i ≠ In_close →
  events (trace_of (step i st)) = [].
Proof.
  intros Hno Hclose. apply events_none.
  by apply (keeps_trace (fun _ => True) _ _ st (step_no_event i Hno Hclose)).
Qed.

(** ** Sessions *)

Lemma hello_eq data message sid st :
  JSON_parse conn data = Some message →
  Get message "type" = Some (VString "hello") →
  Get message "sessionId" = Some (VString sid) →
  onMessage data st =
  Result (Normal tt) (set_sessionId (VString sid) st)
    [E_event (VObject [("type", VString "connection-open")])
       (event_meta (VString sid));
     E_log ("[" +:+ remoteAddr +:+ "] open session " +:+ sid)].
Proof.
  intros Hparse Htype Hsid.
  rewrite (onMessage_dispatch _ _ _ _ Hparse Htype). cbn.
  unfold on_hello, bind. rewrite Hsid. by cbn.
Qed.

(** X1. A [hello] with a string sessionId is accepted in any state: the
    session id becomes that string, replacing an earlier one, and exactly
    one [connection-open] domain event is emitted, whose meta is
    [{connectionId, sessionId, ipAddress}] with the new session id already
    in it.  The handler then logs the session, writes nothing to the
    socket, and leaves the table and the subscriptions alone. *)
Theorem hello_opens_the_session data message sid st :
  JSON_parse conn data = Some message →
  Get message "type" = Some (VString "hello") →
  Get message "sessionId" = Some (VString sid) →
  let r := onMessage data st in
  completion_of r = Normal tt ∧
  sessionId (state_of r) = VString sid ∧
  events (trace_of r) =
    [(VObject [("type", VString "connection-open")],
      VObject [("connectionId", connectionId conn);
               ("sessionId", VString sid);
               ("ipAddress", VString remoteAddr)])] ∧
  trace_of r =
    [E_event (VObject [("type", VString "connection-open")])
       (VObject [("connectionId", connectionId conn);
                 ("sessionId", VString sid);
                 ("ipAddress", VString remoteAddr)]);
     E_log ("[" +:+ remoteAddr +:+ "] open session " +:+ sid)] ∧
  (∀ ev meta, E_event ev meta ∈ trace_of r →
              Get meta "sessionId" = Some (VString sid)) ∧
  socket_sends (trace_of r) = [] ∧
  subscriptions (state_of r) = subscriptions st ∧
  rx_heap (state_of r) = rx_heap st ∧
  readyState (state_of r) = readyState st.
Proof.
  intros Hparse Htype Hsid r. subst r.
  rewrite (hello_eq _ _ _ _ Hparse Htype Hsid). cbn.
  repeat split. intros ev meta Hin.
  apply elem_of_cons in Hin as [[= -> ->]|Hin]; [done|].
  by apply list_elem_of_singleton in Hin.
Qed.

Lemma insertEvent_session v ev : keeps (session_is v) (meta_is v) (insertEvent ev).
Proof.
  intros st Hv. split; [|done]. cbn. repeat constructor.
  intros ev' meta [= <- <-]. by rewrite Hv.
Qed.

Lemma step_keeps_session v i :
  not_hello i → keeps (session_is v) (meta_is v) (step i).
Proof.
  intros Hno.
  assert (∀ message, keeps (session_is v) (meta_is v) (log message))
    as Hlog by (intros; apply keeps_emit; (intros; discriminate)).
  assert (∀ object, envelope object →
                    keeps (session_is v) (meta_is v) (send object)) as Hsend.
  { intros object _. apply send_keeps; (intros; discriminate). }
  destruct i as [data| |ref n|rs']; cbn.
  - apply onMessage_kept; try done; try (intros; discriminate).
    + intros b n name_ text _. apply store_kept; try done; (intros; discriminate).
    + intros message Hparse Htype.
      by apply (on_hello_invalid_kept _ _ Hlog data), Hno.
  - apply cleanup_kept; try done; try (intros; discriminate).
    intros type_. apply insertEvent_session.
  - by apply notify_kept.
  - by apply keeps_modify.
Qed.

Lemma elem_of_effects_of e steps :
  e ∈ effects_of steps → ∃ i tr, (i, tr) ∈ steps ∧ e ∈ tr.
Proof.
  induction steps as [|[i tr] steps IH]; cbn.
  - intros Hin. by apply elem_of_nil in Hin.
  - intros Hin. apply elem_of_app in Hin as [Hin|Hin].
    + exists i, tr. split; [apply list_elem_of_here|done].
    + destruct (IH Hin) as (i' & tr' & Hstep & He).
      exists i', tr'. split; [by apply list_elem_of_further|done].
Qed.

(** X3. The session id of a [hello] stays in force until the next accepted
    [hello]: over any inputs that contain none, every domain event has the
    meta [{connectionId, sessionId, ipAddress}] with that session id as
    [meta.sessionId], the [connection-closed] event of the close handler
    included, and every accepted subscribe passes it to its factory. *)
Theorem hello_session_stays_in_force data message sid later st :
  JSON_parse conn data = Some message →
  Get message "type" = Some (VString "hello") →
  Get message "sessionId" = Some (VString sid) →
  Forall not_hello later →
  let st' := (run later (state_of (onMessage data st))).1 in
  sessionId st' = VString sid ∧
  (∀ ev meta,
     E_event ev meta ∈ effects_of (run later (state_of (onMessage data st))).2 →
     meta = VObject [("connectionId", connectionId conn);
                     ("sessionId", VString sid);
                     ("ipAddress", VString remoteAddr)] ∧
     Get meta "sessionId" = Some (VString sid)) ∧
  events (trace_of (cleanup st')) =
    [(VObject [("type", VString "connection-closed")],
      VObject [("connectionId", connectionId conn);
               ("sessionId", VString sid);
               ("ipAddress", VString remoteAddr)])] ∧
  (∀ data' message' offset n name_ key f,
     JSON_parse conn data' = Some message' →
     Get message' "type" = Some (VString "subscribe") →
     Get message' "offset" = Some offset →
     is_number offset = true →
     Get message' "subscriptionId" = Some (VNumber n) →
     subscriptions st' !! NumberToString n = None →
     Get message' "name" = Some name_ →
     ToPropertyKey name_ = Some key →
     observables conn key = Prop_function f →
     calls (trace_of (onMessage data' st')) = [(key, offset, VString sid)]).
Proof.
  intros Hparse Htype Hsid Hno st'.
  pose proof (hello_eq _ _ _ st Hparse Htype Hsid) as Hst.
  destruct (run_keeps (session_is (VString sid)) (meta_is (VString sid)) later
              (state_of (onMessage data st))) as [Hsession Hmeta].
  { eapply Forall_impl; [exact Hno|]. intros i. apply step_keeps_session. }
  { by rewrite Hst. }
  fold st' in Hsession. unfold session_is in Hsession.
  split; [done|]. split.
  { intros ev meta Hin.
    apply elem_of_effects_of in Hin as (i & tr & Hstep & Hin).
    specialize (Hmeta i tr Hstep). rewrite Forall_forall in Hmeta.
    by rewrite (Hmeta _ Hin ev meta eq_refl). }
  split.
  { rewrite cleanup_eq. cbn. rewrite events_cancels. cbn. by rewrite Hsession. }
  intros data' message' offset n name_ key f
         Hparse' Htype' Hoff Hnum Hid Hfree Hname Hkey Hcat.
  destruct (subscribe_calls_factory _ _ _ _ _ _ _ _ Hparse' Htype' Hoff Hnum
              Hid Hfree Hname Hkey Hcat) as (tr & -> & Hcalls).
  unfold calls in *. cbn. by rewrite Hcalls, Hsession.
Qed.

Lemma step_keeps_session_type i :
  keeps (fun st => null_or_string (sessionId st))
    (fun e => ∀ ev meta, e = E_event ev meta →
                         ∃ sid, meta = event_meta sid ∧ null_or_string sid)
    (step i).
Proof.
  set (Inv := fun st => null_or_string (sessionId st)).
  set (T := fun e => ∀ ev meta, e = E_event ev meta →
                                ∃ sid, meta = event_meta sid ∧ null_or_string sid).
  assert (∀ message, keeps Inv T (log message))
    as Hlog by (intros; apply keeps_emit; (intros; discriminate)).
  assert (∀ object, envelope object → keeps Inv T (send object)) as Hsend.
  { intros object _. apply send_keeps; (intros; discriminate). }
  assert (∀ ev, keeps Inv T (insertEvent ev)) as Hevent.
  { intros ev st HI. split; [|done]. cbn. repeat constructor.
    intros ev' meta [= <- <-]. eauto. }
  destruct i as [data| |ref n|rs']; cbn.
  - apply onMessage_kept; try done; try (intros; discriminate).
    + intros b n name_ text _. apply store_kept; try done; (intros; discriminate).
    + intros message _ _. unfold on_hello.
      apply keeps_bind_lift. intros sid _.
      destruct (is_string sid) eqn:Estr; cbn; [|apply Hlog].
      apply is_string_inv in Estr as [s ->].
      keeps_steps ltac:(first [ apply Hlog | apply Hevent ]).
      intros st _. right. by exists s.
  - apply cleanup_kept; try done; (intros; discriminate).
  - by apply notify_kept.
  - by apply keeps_modify.
Qed.

(** X2. On every connection and after any inputs, the session id is [null]
    or a string, never another value a [hello] may have carried, and so is
    the [sessionId] in the meta of every domain event. *)
Theorem session_id_is_null_or_a_string rs ins :
  null_or_string (sessionId (run ins (initial rs)).1) ∧
  ∀ ev meta,
    E_event ev meta ∈ effects_of (run ins (initial rs)).2 →
    ∃ sid, meta = event_meta sid ∧ null_or_string sid.
Proof.
  destruct (run_keeps _ _ ins (initial rs)
              (Forall_true _ _ step_keeps_session_type)) as [Hst Hmeta].
  { by left. }
  split; [done|]. intros ev meta Hin.
  apply elem_of_effects_of in Hin as (i & tr & Hstep & Hin).
  specialize (Hmeta i tr Hstep). rewrite Forall_forall in Hmeta.
  by eapply Hmeta.
Qed.

(** ** The table and the store of subscriptions *)

Lemma consistent_close ref st : consistent st → consistent (close ref st).
Proof.
  intros Hc key ref' Hk. destruct (Hc key ref' Hk) as (Hlt & s & n & Hs & Hrest).
  split; [done|]. cbn. rewrite lookup_alter. case_decide as Heq.
  - subst ref'. rewrite Hs. cbn. by exists (mark_closed s), n.
  - by exists s, n.
Qed.

Lemma consistent_delete key st :
  consistent st →
  consistent (set_subscriptions (delete key (subscriptions st)) st).
Proof.
  intros Hc key' ref. cbn. rewrite lookup_delete. case_decide; [done|apply Hc].
Qed.

Lemma consistent_store (closes : bool) n name_ text st :
  ToString name_ = Some text →
  consistent st →
  let st1 := allocate (VNumber n) st in
  let st2 := if closes then close (next_ref st) st1 else st1 in
  let st3 := set_name (next_ref st) name_ st2 in
  consistent
    (set_subscriptions (<[NumberToString n := next_ref st]> (subscriptions st3))
       st3).
Proof.
  intros Htext Hc st1 st2 st3 key ref.
  assert (next_ref st3 = S (next_ref st)) as Hnext by by destruct closes.
  assert (subscriptions st3 = subscriptions st) as Htable by by destruct closes.
  cbn [set_subscriptions subscriptions next_ref rx_heap].
  rewrite Hnext, Htable, lookup_insert. case_decide as Heq.
  - intros [= <-]. split; [lia|].
    exists {| closed := closes; name := name_; observer_id := VNumber n |}, n.
    split; [|cbn; rewrite Htext; by eauto].
    subst st3 st2 st1. destruct closes; cbn;
      rewrite ?lookup_alter_eq, lookup_insert_eq; done.
  - intros Hk. destruct (Hc key ref Hk) as (Hlt & s & m & Hs & Hrest).
    split; [lia|]. exists s, m. split; [|done].
    subst st3 st2 st1. destruct closes; cbn;
      rewrite ?lookup_alter_ne by lia; rewrite lookup_insert_ne by lia; done.
Qed.

Lemma store_keeps_consistent b n name_ text :
  ToString name_ = Some text →
  keeps consistent any_effect
    (let* subscription := subscribe b (VNumber n) in
     modify (set_name subscription name_) >>
     modify (fun st' =>
               set_subscriptions
                 (<[NumberToString n := subscription]> (subscriptions st'))
                 st')).
Proof.
  intros Htext st Hc. split; [apply Forall_any_effect|].
  destruct (subscribe_cases b (VNumber n) st)
    as [[tr Hs]|(stopped & tr & Hs)].
  - by rewrite (bind_throws _ _ _ _ _ Hs).
  - rewrite (bind_eval _ _ _ _ _ _ Hs). cbn.
    apply (consistent_store stopped n name_ text st Htext Hc).
Qed.

Lemma step_keeps_consistent i : keeps consistent any_effect (step i).
Proof.
  assert (∀ message, keeps consistent any_effect (log message))
    as Hlog by (intros; by apply keeps_emit).
  assert (∀ object, envelope object →
                    keeps consistent any_effect (send object))
    as Hsend by (intros; by apply send_keeps).
  assert (∀ ev, keeps consistent any_effect (insertEvent ev)) as Hevent.
  { intros ev st HI. split; [apply Forall_any_effect|done]. }
  assert (∀ ref st, consistent st → consistent (close ref st))
    as Hclose by (intros; by apply consistent_close).
  assert (∀ key st, consistent st →
            consistent (set_subscriptions (delete key (subscriptions st)) st))
    as Hdelete by (intros; by apply consistent_delete).
  assert (∀ st, consistent st → consistent (set_subscriptions ∅ st)) as Hclear.
  { intros st _ key ref. cbn. by rewrite lookup_empty. }
  destruct i as [data| |ref n|rs']; cbn.
  - apply onMessage_kept; try done; try apply store_keeps_consistent.
    intros message _ _. by apply on_hello_kept.
  - by apply cleanup_kept.
  - by apply notify_kept.
  - by apply keeps_modify.
Qed.

Lemma consistent_reachable rs ins : consistent (run ins (initial rs)).1.
Proof.
  apply (run_keeps consistent any_effect ins (initial rs)).
  - apply Forall_true. intros i. apply step_keeps_consistent.
  - intros key ref. cbn. by rewrite lookup_empty.
Qed.

(** What the observer of [subscriptionId] writes carries that id. *)
Lemma deliver_tags subscriptionId n st payload :
  E_socket_send payload ∈ trace_of (deliver (createObserver subscriptionId) n st) →
  Get payload "subscriptionId" = Some subscriptionId.
Proof.
  destruct n as [batch|err|].
  - rewrite deliver_next. cbn. destruct (readyState st); cbn;
      intros Hin; apply list_elem_of_singleton in Hin; by inversion Hin.
  - destruct (ToString err) as [text|] eqn:Htext.
    + rewrite (deliver_error _ _ _ _ Htext). cbn. intros Hin.
      apply elem_of_cons in Hin as [[=]|Hin].
      destruct (readyState st); cbn in Hin;
        apply list_elem_of_singleton in Hin; by inversion Hin.
    + cbn. unfold bind. rewrite Htext. cbn. intros Hin.
      by apply elem_of_nil in Hin.
  - rewrite deliver_complete. cbn. destruct (readyState st); cbn;
      intros Hin; apply list_elem_of_singleton in Hin; by inversion Hin.
Qed.

(** X7. On every connection and after any inputs, the table and the
    subscription objects agree.  An entry refers to a subscription object
    that exists; two ids never share a subscription; and whatever a
    subscription in the table writes to the socket is tagged with the numeric
    id under which it is stored. *)
Theorem table_entries_own_their_subscriptions rs ins :
  let st := (run ins (initial rs)).1 in
  (∀ key ref, subscriptions st !! key = Some ref →
              is_Some (rx_heap st !! ref)) ∧
  (∀ key key' ref,
     subscriptions st !! key = Some ref →
     subscriptions st !! key' = Some ref → key = key') ∧
  (∀ key ref n payload,
     subscriptions st !! key = Some ref →
     E_socket_send payload ∈ trace_of (notify ref n st) →
     ∃ m, Get payload "subscriptionId" = Some (VNumber m) ∧
          NumberToString m = key).
Proof.
  intros st. pose proof (consistent_reachable rs ins) as Hc. fold st in Hc.
  split; [|split].
  - intros key ref Hk. destruct (Hc key ref Hk) as (_ & s & n & Hs & _). eauto.
  - intros key key' ref Hk Hk'.
    destruct (Hc key ref Hk) as (_ & s & n & Hs & Hid & <- & _).
    destruct (Hc key' ref Hk') as (_ & s' & n' & Hs' & Hid' & <- & _).
    rewrite Hs in Hs'. injection Hs' as <-. congruence.
  - intros key ref n payload Hk Hin.
    destruct (Hc key ref Hk) as (_ & s & m & Hs & Hid & Hkey & _).
    exists m. split; [|done]. rewrite <- Hid.
    destruct (closed s) eqn:Hclosed.
    + rewrite (notify_closed _ _ _ _ Hs Hclosed) in Hin.
      by apply elem_of_nil in Hin.
    + rewrite (notify_open _ _ _ _ Hs Hclosed) in Hin.
      by apply deliver_tags in Hin.
Qed.

(** ** Unsubscribing *)

Lemma unsubscribe_eq data message n ref s text st :
  JSON_parse conn data = Some message →
  Get message "type" = Some (VString "unsubscribe") →
  Get message "subscriptionId" = Some (VNumber n) →
  subscriptions st !! NumberToString n = Some ref →
  rx_heap st !! ref = Some s →
  ToString (name s) = Some text →
  onMessage data st =
  Result (Normal tt)
    (set_subscriptions (delete (NumberToString n) (subscriptions st))
       (close ref st))
    [E_log ("[" +:+ remoteAddr +:+ "] unsubscribing from " +:+ text);
     E_unsubscribe ref].
Proof.
  intros Hparse Htype Hid Hk Hs Htext.
  rewrite (onMessage_dispatch _ _ _ _ Hparse Htype). cbn.
  unfold on_unsubscribe, unsubscribe, bind. rewrite Hid. cbn.
  rewrite has_property_number, bool_decide_eq_true_2 by (rewrite Hk; eauto).
  cbn. rewrite Hk. cbn. rewrite Hs. cbn. rewrite Htext. by cbn.
Qed.

(** X4. On every connection and after any inputs, an unsubscribe whose
    numeric subscriptionId is in the table returns normally: it calls
    [unsubscribe] on that entry's subscription, removes the entry and
    leaves every other entry alone, writes nothing to the socket and emits
    no domain event.  The id is free again, and whatever arrives later, a
    notification of the cancelled subscription has no effect. *)
Theorem unsubscribe_cancels_and_frees_the_id rs prior later data message n ref :
  let st := (run prior (initial rs)).1 in
  JSON_parse conn data = Some message →
  Get message "type" = Some (VString "unsubscribe") →
  Get message "subscriptionId" = Some (VNumber n) →
  subscriptions st !! NumberToString n = Some ref →
  let r := onMessage data st in
  completion_of r = Normal tt ∧
  unsubscribed (trace_of r) = [ref] ∧
  socket_sends (trace_of r) = [] ∧
  events (trace_of r) = [] ∧
  subscriptions (state_of r) = delete (NumberToString n) (subscriptions st) ∧
  subscriptions (state_of r) !! NumberToString n = None ∧
  (∀ key, key ≠ NumberToString n →
          subscriptions (state_of r) !! key = subscriptions st !! key) ∧
  (∀ i tr,
     (i, tr) ∈ (run later (state_of r)).2 →
     (∃ n', i = In_notify ref n') →
     tr = []).
Proof.
  intros st Hparse Htype Hid Hk r.
  destruct (consistent_reachable rs prior _ _ Hk)
    as (Hlt & s & m & Hs & _ & _ & [text Htext]).
  fold st in Hlt, Hs.
  subst r. rewrite (unsubscribe_eq _ _ _ _ _ _ _ Hparse Htype Hid Hk Hs Htext).
  cbn. split; [done|]. split; [done|]. split; [done|]. split; [done|].
  split; [done|]. split; [apply lookup_delete_eq|].
  split; [by intros key Hne; rewrite lookup_delete_ne|].
  intros i tr. apply run_dead_silent.
  destruct (dead_closed_by ref st Hlt) as [Hlt' Hcl]. by split.
Qed.

(** ** Subscribing to a stream *)

(** An accepted subscribe to a source whose notifications the observer can
    handle. *)
Lemma subscribe_source_eq data message offset n name_ key f array inside st :
  JSON_parse conn data = Some message →
  Get message "type" = Some (VString "subscribe") →
  Get message "offset" = Some offset →
  is_number offset = true →
  Get message "subscriptionId" = Some (VNumber n) →
  subscriptions st !! NumberToString n = None →
  Get message "name" = Some name_ →
  ToPropertyKey name_ = Some key →
  observables conn key = Prop_function f →
  f offset (sessionId st) = Returned (Source array inside) →
  (isArray array = false → Forall prints inside) →
  let b := if isArray array then Observable_of array else Rewrapped inside in
  let opened := allocate (VNumber n) st in
  let delivered :=
    if existsb is_terminal (synchronous b)
    then close (next_ref st) opened else opened in
  onMessage data st =
  Result (Normal tt)
    (set_subscriptions
       (<[NumberToString n := next_ref st]> (subscriptions st))
       (set_name (next_ref st) name_ delivered))
    (E_log ("[" +:+ remoteAddr +:+ "] subscribing to " +:+ key)
     :: E_call key offset (sessionId st)
     :: E_subscribe (next_ref st)
     :: trace_of (deliver_while_open (createObserver (VNumber n))
                    (synchronous b) st)).
Proof.
  intros Hparse Htype Hoff Hnum Hid Hfree Hname Hkey Hcat Hcall Hinside
         b opened delivered.
  rewrite (onMessage_dispatch _ _ _ _ Hparse Htype). cbn.
  rewrite (on_subscribe_lookup _ _ _ _ _ _ Hoff Hnum Hid Hfree Hname Hkey).
  rewrite Hcat, Hcall. cbn. fold b.
  assert (Forall prints (synchronous b)) as Hb.
  { subst b. destruct (isArray array); [by repeat constructor|auto]. }
  rewrite (bind_eval _ _ _ _ _ _ (subscribe_prints b (VNumber n) st Hb)).
  subst delivered opened. cbn.
  destruct (existsb is_terminal (synchronous b)); cbn; by rewrite app_nil_r.
Qed.





(** X6. Subscribing to a source under a free id and then unsubscribing
    that id brings the table back to what it was: the second message
    cancels the very subscription the first one created, writes nothing to
    the socket, and leaves that subscription closed.  This holds for an
    array-shaped source and for a stream, whatever the stream hands over
    while it is being subscribed to, as long as its observer can handle
    it. *)
Theorem subscribe_then_unsubscribe_restores_the_table
    data message offset n name_ key f array inside data' message' st :
  JSON_parse conn data = Some message →
  Get message "type" = Some (VString "subscribe") →
  Get message "offset" = Some offset →
  is_number offset = true →
  Get message "subscriptionId" = Some (VNumber n) →
  subscriptions st !! NumberToString n = None →
  Get message "name" = Some name_ →
  ToPropertyKey name_ = Some key →
  observables conn key = Prop_function f →
  f offset (sessionId st) = Returned (Source array inside) →
  (isArray array = false → Forall prints inside) →
  JSON_parse conn data' = Some message' →
  Get message' "type" = Some (VString "unsubscribe") →
  Get message' "subscriptionId" = Some (VNumber n) →
  let r := onMessage data' (state_of (onMessage data st)) in
  completion_of r = Normal tt ∧
  unsubscribed (trace_of r) = [next_ref st] ∧
  socket_sends (trace_of r) = [] ∧
  subscriptions (state_of r) = subscriptions st ∧
  rx_heap (state_of r) !! next_ref st =
    Some {| closed := true; name := name_; observer_id := VNumber n |}.
Proof.
  intros Hparse Htype Hoff Hnum Hid Hfree Hname Hkey Hcat Hcall Hinside
         Hparse' Htype' Hid' r.
  subst r.
  rewrite (subscribe_source_eq _ _ _ _ _ _ _ _ _ _ Hparse Htype Hoff Hnum Hid
             Hfree Hname Hkey Hcat Hcall Hinside).
  cbn [state_of].
  set (b := if isArray array then Observable_of array else Rewrapped inside).
  erewrite (unsubscribe_eq data' message' n (next_ref st)
              {| closed := existsb is_terminal (synchronous b); name := name_;
                 observer_id := VNumber n |} key);
    try done.
  - cbn. split; [done|]. split; [done|]. split; [done|].
    split; [by rewrite delete_insert_eq, delete_id|].
    destruct (existsb is_terminal (synchronous b)); cbn;
      by rewrite !lookup_alter_eq, lookup_insert_eq.
  - cbn. apply lookup_insert_eq.
  - destruct (existsb is_terminal (synchronous b)); cbn;
      by rewrite ?lookup_alter_eq, lookup_insert_eq.
Qed.

(** ** Closing twice, and the order of delivery *)

(** X11. The close handler can run again: a second [cleanup] finds the
    table empty, cancels nothing and leaves the state as the first one left
    it, but logs and emits a second [connection-closed] domain event with the
    same meta. *)
Theorem cleanup_twice st :
  let r := cleanup st in
  let r' := cleanup (state_of r) in
  completion_of r' = Normal tt ∧
  subscriptions (state_of r) = ∅ ∧
  unsubscribed (trace_of r') = [] ∧
  socket_sends (trace_of r') = [] ∧
  state_of r' = state_of r ∧
  events (trace_of r') = events (trace_of r) ∧
  events (trace_of r') =
    [(VObject [("type", VString "connection-closed")],
      event_meta (sessionId st))].
Proof.
  intros r r'. subst r' r. rewrite (cleanup_eq st). cbn [state_of].
  rewrite cleanup_eq. cbn. rewrite map_to_list_empty. cbn.
  rewrite events_cancels, sessionId_closes. by cbn.
Qed.

Lemma effects_of_cons i tr steps :
  effects_of ((i, tr) :: steps) = (tr ++ effects_of steps)%list.
Proof. done. Qed.

(** X13. The envelopes of one subscription leave in the order of its
    stream: when an open subscription receives the batches [bs] and then the
    completion, the handler sends one [events] envelope per batch, in that
    order, then the [complete] envelope, and the subscription is closed;
    the table is not involved. *)
Theorem batches_are_sent_in_order ref s (bs : list value) st :
  rx_heap st !! ref = Some s →
  closed s = false →
  let ins := (((fun b => In_notify ref (N_next b)) <$> bs)
              ++ [In_notify ref N_complete])%list in
  let events_of b :=
    VObject [("type", VString "events"); ("batch", b);
             ("subscriptionId", observer_id s)] in
  let completed :=
    VObject [("type", VString "complete");
             ("subscriptionId", observer_id s)] in
  effects_of (run ins st).2 =
    (concat ((fun b => send_trace (readyState st) (events_of b)) <$> bs)
     ++ send_trace (readyState st) completed)%list ∧
  (readyState st = OPEN →
   socket_sends (effects_of (run ins st).2) =
   ((events_of <$> bs) ++ [completed])%list) ∧
  (run ins st).1 = close ref st.
Proof.
  intros Hs Hopen ins events_of completed.
  assert (effects_of (run ins st).2 =
            (concat ((fun b => send_trace (readyState st) (events_of b)) <$> bs)
             ++ send_trace (readyState st) completed)%list ∧
          (run ins st).1 = close ref st) as [Htrace Hstate].
  { subst ins. induction bs as [|b bs IH].
    - cbn. rewrite (notify_open _ _ _ _ Hs Hopen). cbn.
      rewrite send_eq. cbn. by rewrite app_nil_r.
    - cbn [fmap list_fmap app]. rewrite run_cons. cbn [fst snd step].
      rewrite (notify_open _ _ _ _ Hs Hopen). cbn [is_terminal].
      rewrite deliver_next. cbn [state_of trace_of].
      destruct IH as [IHt IHs]. rewrite effects_of_cons, IHt.
      split; [|done]. cbn. by rewrite <- app_assoc. }
  split; [done|]. split; [|done].
  intros Hready. rewrite Htrace, Hready. clear.
  induction bs as [|b bs IH]; [done|]. cbn. by f_equal.
Qed.

(** ** Exceptions and the state *)

Lemma still_safe {A} (m : M A) : still m → exception_safe m.
Proof. intros Hm st _. apply Hm. Qed.

Lemma returns_safe {A} (m : M A) : returns m → exception_safe m.
Proof. intros Hm st Hthrown. destruct (Hm st) as [a Ha]. congruence. Qed.

Lemma still_bind {A B} (m : M A) (k : A → M B) :
  still m → (∀ a, still (k a)) → still (bind m k).
Proof.
  intros Hm Hk st. unfold bind. specialize (Hm st).
  destruct (m st) as [[a|] st' tr]; cbn in *; [|done].
  specialize (Hk a st'). destruct (k a st'). cbn in *. congruence.
Qed.

Lemma returns_bind {A B} (m : M A) (k : A → M B) :
  returns m → (∀ a, returns (k a)) → returns (bind m k).
Proof.
  intros Hm Hk st. unfold bind. destruct (Hm st) as [a Ha].
  destruct (m st) as [c st' tr]. cbn in Ha. subst c.
  destruct (Hk a st') as [b Hb]. destruct (k a st'). cbn in *. eauto.
Qed.

Lemma safe_bind {A B} (m : M A) (k : A → M B) :
  still m → (∀ a, exception_safe (k a)) → exception_safe (bind m k).
Proof.
  intros Hm Hk st. unfold bind. specialize (Hm st).
  destruct (m st) as [[a|] st' tr]; cbn in *; [|done].
  subst st'. specialize (Hk a st). destruct (k a st). cbn in *. done.
Qed.

Lemma still_lift {A} (o : option A) : still (lift o).
Proof. intros st. by destruct o. Qed.

Lemma still_log message : still (log message).
Proof. done. Qed.

Lemma returns_log message : returns (log message).
Proof. intros st. by eexists. Qed.

Lemma still_send object : still (send object).
Proof. intros st. by rewrite send_eq. Qed.

Lemma returns_send object : returns (send object).
Proof. intros st. rewrite send_eq. by eexists. Qed.

Lemma returns_modify f : returns (modify f).
Proof. intros st. by eexists. Qed.

Lemma subscribe_safe b subscriptionId :
  exception_safe (subscribe b subscriptionId).
Proof.
  intros st. by destruct (subscribe_cases b subscriptionId st)
    as [[tr ->]|(stopped & tr & ->)].
Qed.

Lemma safe_then_returns {A B} (m : M A) (k : A → M B) :
  exception_safe m → (∀ a, returns (k a)) → exception_safe (bind m k).
Proof.
  intros Hm Hk st. unfold bind. specialize (Hm st).
  destruct (m st) as [[a|] st' tr]; cbn in *; [|by intros _; apply Hm].
  destruct (Hk a st') as [b Hb]. destruct (k a st'). cbn in *. congruence.
Qed.

Lemma on_hello_safe message : exception_safe (on_hello message).
Proof.
  unfold on_hello. apply safe_bind; [apply still_lift|]. intros sid.
  destruct (is_string sid) eqn:Estr; cbn; [|apply still_safe, still_log].
  apply is_string_inv in Estr as [s ->]. apply returns_safe.
  intros st. by eexists.
Qed.

Lemma on_subscribe_safe message : exception_safe (on_subscribe message).
Proof.
  unfold on_subscribe. apply safe_bind; [apply still_lift|]. intros offset.
  destruct (is_number offset); cbn; [|apply still_safe, still_log].
  apply safe_bind; [apply still_lift|]. intros subscriptionId.
  destruct (is_number subscriptionId); cbn; [|apply still_safe, still_log].
  apply safe_bind; [apply still_lift|]. intros key.
  apply safe_bind; [done|]. intros st.
  destruct (has_property (subscriptions st) key);
    [apply still_safe, still_log|].
  apply safe_bind; [apply still_lift|]. intros name_.
  apply safe_bind; [apply still_lift|]. intros name_key. cbv zeta.
  apply safe_bind.
  { apply still_bind; [apply still_lift|]. intros text. apply still_log. }
  intros _.
  destruct (property_truthy (observables conn name_key));
    [|apply still_safe, still_send].
  destruct (observables conn name_key) as [v|f]; [by apply still_safe|].
  apply safe_bind; [done|]. intros _.
  destruct (f offset (sessionId st)) as [observable|]; [|by apply still_safe].
  destruct (produced_truthy observable && has_subscribe observable).
  - cbv zeta. apply safe_then_returns; [apply subscribe_safe|].
    intros subscription.
    apply returns_bind; [apply returns_modify|]. intros _.
    apply returns_modify.
  - apply still_safe. apply still_bind; [|intros _; apply still_send].
    apply still_bind; [apply still_lift|]. intros text.
    apply still_bind; [apply still_lift|]. by intros got.
Qed.

Lemma on_unsubscribe_safe message : exception_safe (on_unsubscribe message).
Proof.
  unfold on_unsubscribe. apply safe_bind; [apply still_lift|].
  intros subscriptionId.
  apply safe_bind; [apply still_lift|]. intros key.
  apply safe_bind; [done|]. intros st.
  destruct (negb (has_property (subscriptions st) key));
    [apply still_safe, still_log|].
  destruct (negb (is_number subscriptionId)); [apply still_safe, still_log|].
  destruct (subscriptions st !! key) as [ref|].
  - apply safe_bind.
    { apply still_bind; [apply still_lift|]. intros text. apply still_log. }
    intros _. apply returns_safe.
    apply returns_bind; [|intros _; apply returns_modify].
    unfold unsubscribe. apply returns_bind; [|intros _; apply returns_modify].
    intros st'. by eexists.
  - apply still_safe. apply still_bind; [apply still_log|]. by intros _.
Qed.

(** X14. A message that makes the handler throw leaves the connection as
    it was: the session id, the table and the subscriptions are exactly
    those from before the message, so the exception never leaves a
    subscription half-registered or half-removed. *)
Theorem an_exception_leaves_the_state_untouched data st :
  completion_of (onMessage data st) = Thrown →
  state_of (onMessage data st) = st.
Proof.
  revert st. change (exception_safe (onMessage data)).
  unfold onMessage. apply safe_bind.
  { unfold parseJSON. destruct (JSON_parse conn data); [done|].
    apply still_bind; [done|]. by intros _. }
  intros message. destruct (is_nullish message); [apply still_safe, still_log|].
  apply safe_bind; [apply still_lift|]. intros type.
  destruct type as [| | | |t| |]; try apply still_safe, still_log.
  destruct (String.eqb t "hello"); [apply on_hello_safe|].
  destruct (String.eqb t "subscribe"); [apply on_subscribe_safe|].
  destruct (String.eqb t "unsubscribe"); [apply on_unsubscribe_safe|].
  apply still_safe, still_log.
Qed.

End Multiplexer.

Arguments Normal {A} a.
Arguments Thrown {A}.
Arguments Result {JS A} _ _ _.
Arguments completion_of {JS A} _.
Arguments state_of {JS A} _.
Arguments trace_of {JS A} _.

(** ** The batching adapter *)

Module Batches.
Local Open Scope list_scope.

Section Adapter.
Variables item failure : Type.

(** Modelled from the spec: [rewrapBatches] of [src/batches.js], which is
    imported by the handler but is not among the sources.  Section 4.3 of the
    specification leaves the grouping policy open, so the model takes it as
    part of the input: the source's items arrive interleaved with the
    boundaries (a timer firing, a volume limit reached) at which the adapter
    closes the batch it is filling.  The adapter buffers items, delivers the
    buffer at a boundary when it is not empty, and when the source ends it
    delivers what is left before it propagates the completion or the
    error. *)
Inductive source_event :=
  | Item (x : item)
  | Boundary.

Inductive ending :=
  | Completed
  | Failed (err : failure).

Inductive delivery :=
  | Batch (items : list item)
  | Ended (e : ending).

(** The buffer holds the newest item first. *)
Definition flush (buffer : list item) : list delivery :=
  match buffer with
  | [] => []
  | _ => [Batch (rev buffer)]
  end.

Fixpoint rewrap (buffer : list item) (source : list source_event)
    (e : ending) : list delivery :=
  match source with
  | [] => flush buffer ++ [Ended e]
  | Item x :: rest => rewrap (x :: buffer) rest e
  | Boundary :: rest => flush buffer ++ rewrap [] rest e
  end.

Definition rewrapBatches (source : list source_event) (e : ending)
  : list delivery :=
  rewrap [] source e.

Definition items_of (source : list source_event) : list item :=
  omap (fun ev => match ev with Item x => Some x | Boundary => None end) source.

Definition batches_of (out : list delivery) : list (list item) :=
  omap (fun d => match d with Batch b => Some b | Ended _ => None end) out.

Lemma flush_batches buffer :
  Forall (fun b => b ≠ []) (batches_of (flush buffer)) ∧
  concat (batches_of (flush buffer)) = rev buffer ∧
  flush buffer = Batch <$> batches_of (flush buffer).
Proof.
  destruct buffer as [|x buffer]; [done|]. cbn. split; [|by rewrite app_nil_r].
  repeat constructor. intros Hnil. by apply app_eq_nil in Hnil as [_ ?].
Qed.

Lemma batches_of_app out out' :
  batches_of (out ++ out') = batches_of out ++ batches_of out'.
Proof. apply omap_app. Qed.

Lemma rewrap_spec buffer source e :
  Forall (fun b => b ≠ []) (batches_of (rewrap buffer source e)) ∧
  concat (batches_of (rewrap buffer source e)) = rev buffer ++ items_of source ∧
  rewrap buffer source e =
  (Batch <$> batches_of (rewrap buffer source e)) ++ [Ended e].
Proof.
  revert buffer. induction source as [|ev source IH]; intros buffer.
  - cbn [rewrap]. destruct (flush_batches buffer) as (Hne & Hcat & Hshape).
    rewrite batches_of_app. cbn. rewrite !app_nil_r.
    split; [done|]. split; [done|]. by rewrite <- Hshape.
  - destruct ev as [x|]; cbn [rewrap].
    + destruct (IH (x :: buffer)) as (Hne & Hcat & Hshape).
      split; [done|]. split; [|done].
      rewrite Hcat. cbn. by rewrite <- app_assoc.
    + destruct (flush_batches buffer) as (Hne & Hcat & Hshape).
      destruct (IH []) as (Hne' & Hcat' & Hshape').
      rewrite batches_of_app. split; [by apply Forall_app|]. split.
      * by rewrite concat_app, Hcat, Hcat'.
      * rewrite fmap_app, <- Hshape, <- app_assoc. by rewrite <- Hshape'.
Qed.

(** C8. Whatever the source emits and wherever the adapter draws its batch
    boundaries, every batch it delivers is non-empty, the batches
    concatenated in delivery order are exactly the source's items in the
    source's order, and the completion or error comes once, after every
    batch. *)
Theorem rewrapBatches_preserves_items source e :
  let out := rewrapBatches source e in
  Forall (fun b => b ≠ []) (batches_of out) ∧
  concat (batches_of out) = items_of source ∧
  out = (Batch <$> batches_of out) ++ [Ended e].
Proof. apply (rewrap_spec [] source e). Qed.

End Adapter.
End Batches.

(** ** A connection to run *)

Lemma decimal_not_inherited (z : Z) :
  Object_prototype_has (NilZero.string_of_int (Z.to_int z)) = false.
Proof. destruct (Z.to_int z) as [u | u]; destruct u; reflexivity. Qed.

(** Numbers restricted to the integers, printed in decimal. *)
#[global] Instance Z_JSNumber : JSNumber := {|
  number := Z;
  number_lit z := z;
  number_truthy z := negb (Z.eqb z 0);
  NumberToString z := NilZero.string_of_int (Z.to_int z);
  NumberToString_own := decimal_not_inherited
|}.

Module Scenario.

Definition subscribe_message (subscriptionId : Z) (name_ : value) : value :=
  VObject [("type", VString "subscribe");
           ("subscriptionId", VNumber subscriptionId);
           ("offset", VNumber 0%Z); ("name", name_)].

(** [{type: subscribe, subscriptionId: 1, offset: 0}] *)
Definition subscribe_nameless : value :=
  VObject [("type", VString "subscribe"); ("subscriptionId", VNumber 1%Z);
           ("offset", VNumber 0%Z)].

Definition unsubscribe_message (subscriptionId : value) : value :=
  VObject [("type", VString "unsubscribe");
           ("subscriptionId", subscriptionId)].

Definition hello_message : value :=
  VObject [("type", VString "hello"); ("sessionId", VString "s1")].

(** An object whose own [toString] is not callable. *)
Definition unprintable : value := VObject [("toString", VNumber 0%Z)].

Definition frames : list value :=
  [ subscribe_message 1 (VString "feed");
    subscribe_message 2 (VString "numbers");
    subscribe_message 3 (VString "broken");
    subscribe_message 4 (VString "nowhere");
    subscribe_message 5 (VString "__proto__");
    subscribe_message 6 unprintable;
    subscribe_message 7 (VString "odd");
    subscribe_nameless;
    unsubscribe_message (VNumber 1%Z);
    unsubscribe_message unprintable;
    hello_message;
    subscribe_message 8 (VString "constructor");
    subscribe_message 9 (VString "valueOf");
    subscribe_message 10 (VString "range");
    unsubscribe_message (VNumber 10%Z) ].

(** Five factories: a stream that produces later, an array-shaped source,
    one that returns [null], one that returns an object that cannot be
    printed, and a stream that hands over two batches and completes while it
    is being subscribed to. *)
Definition factories : list (string * (value → value → call_result)) :=
  [ ("feed", fun _ _ => Returned (Source VUndefined []));
    ("numbers",
     fun _ _ => Returned (Source (VArray [VNumber 1%Z; VNumber 2%Z;
                                          VNumber 3%Z]) []));
    ("broken", fun _ _ => Returned (Data VNull));
    ("odd", fun _ _ => Returned (Data unprintable));
    ("range",
     fun _ _ =>
       Returned (Source VUndefined
                   [N_next (VArray [VNumber 1%Z]);
                    N_next (VArray [VNumber 2%Z]); N_complete])) ].

Definition catalog : string → property := ordinary_object factories.

Definition conn : connection := {|
  JSON_parse := parse_frames frames;
  observables := catalog;
  connectionId := VNumber 7%Z;
  x_forwarded_for := None;
  remoteAddress := "10.0.0.1"
|}.

Definition frame (message : value) : input := In_message (JSON_text message).

Definition num (z : Z) : value := VNumber z.

(** The connection after a subscribe to the stream [feed] under id 1. *)
Definition subscribed : state :=
  (run conn [frame (subscribe_message 1 (VString "feed"))] (initial OPEN)).1.

(** The same connection reached through a proxy that reports the client's
    address. *)
Definition proxied : connection := {|
  JSON_parse := parse_frames frames;
  observables := catalog;
  connectionId := VNumber 7%Z;
  x_forwarded_for := Some "203.0.113.9";
  remoteAddress := "10.0.0.1"
|}.

End Scenario.

(** ** The claims on the running connection *)

Section Runs.
Import Scenario.

(** C1 fails as stated: a subscribe without a [name] is not dropped.  The
    absent name is looked up as the key [undefined], the catalog has no such
    entry, and the client is sent a 404 envelope. *)
Lemma nameless_subscribe_is_answered :
  let st := initial OPEN in
  let data := JSON_text subscribe_nameless in
  JSON_parse conn data = Some subscribe_nameless ∧
  subscribe_without_name st subscribe_nameless ∧
  socket_sends (trace_of (onMessage conn data st)) =
    [VObject [("type", VString "error"); ("subscriptionId", VNumber 1%Z);
              ("error", VObject [("code", VNumber 404%Z);
                                 ("message", VString "Not found")])]] ∧
  ¬ silently_dropped st (onMessage conn data st).
Proof.
  cbv zeta. split; [reflexivity|]. split.
  { eexists _, _, _. repeat split; reflexivity. }
  split; [reflexivity|].
  intros (_ & _ & Hsends & _). vm_compute in Hsends. discriminate.
Qed.

(** C1, on a run: an unsubscribe of id 1 on a fresh connection. *)
Lemma protocol_errors_are_dropped_witness :
  let st := initial OPEN in
  let data := JSON_text (unsubscribe_message (VNumber 1%Z)) in
  protocol_error st (JSON_parse conn data) ∧
  silently_dropped st (onMessage conn data st).
Proof.
  assert (protocol_error (initial OPEN)
            (JSON_parse conn (JSON_text (unsubscribe_message (VNumber 1%Z)))))
    as Herr.
  { apply (PE_unknown_id (JS:=Z_JSNumber) _ (unsubscribe_message (num 1)) (num 1) "1");
      reflexivity. }
  split; [exact Herr|].
  exact (protocol_errors_are_dropped (JS:=Z_JSNumber) conn _ _ Herr).
Defined.

(** C2: four frames on which the handler ends in an exception.  The name
    [__proto__] resolves to the prototype object of the catalog, which is
    truthy and gets called; an object name with an own [toString] cannot be
    converted to a property key; the same holds for such a subscriptionId
    in an unsubscribe, whose membership test comes before its type test; and
    a factory result that cannot be printed breaks the error report. *)
Theorem message_handler_can_throw :
  let handled (message : value) :=
    onMessage conn (JSON_text message) (initial OPEN) in
  JSON_parse conn (JSON_text (subscribe_message 5 (VString "__proto__")))
    = Some (subscribe_message 5 (VString "__proto__")) ∧
  completion_of (handled (subscribe_message 5 (VString "__proto__"))) = Thrown ∧
  completion_of (handled (subscribe_message 6 unprintable)) = Thrown ∧
  completion_of (handled (unsubscribe_message unprintable)) = Thrown ∧
  completion_of (handled (subscribe_message 7 (VString "odd"))) = Thrown ∧
  socket_sends (trace_of (handled (subscribe_message 7 (VString "odd")))) = [].
Proof. cbv zeta. repeat split; reflexivity. Qed.

(** C3: the names [constructor] and [valueOf] are not in the catalog, yet
    a subscribe to one of them does not get the 404 envelope.
    [observables[name]] finds the member the catalog object inherits from
    [Object.prototype]: [Object], called with the offset, returns a number
    object, which is reported as "500"; [valueOf], called as a plain
    function, throws.  A name that is neither in the catalog nor inherited,
    like [nowhere], gets the 404 envelope. *)
Theorem inherited_name_is_not_answered_404 :
  let handled (message : value) :=
    onMessage conn (JSON_text message) (initial OPEN) in
  let not_found (subscriptionId : Z) :=
    VObject [("type", VString "error");
             ("subscriptionId", VNumber subscriptionId);
             ("error", VObject [("code", VNumber 404%Z);
                                ("message", VString "Not found")])] in
  JSON_parse conn (JSON_text (subscribe_message 8 (VString "constructor")))
    = Some (subscribe_message 8 (VString "constructor")) ∧
  observables conn = ordinary_object factories ∧
  own_factory factories "constructor" = None ∧
  own_factory factories "valueOf" = None ∧
  completion_of (handled (subscribe_message 8 (VString "constructor")))
    = Normal tt ∧
  calls (trace_of (handled (subscribe_message 8 (VString "constructor"))))
    = [("constructor", VNumber 0%Z, VNull)] ∧
  socket_sends (trace_of (handled (subscribe_message 8 (VString "constructor"))))
    = [VObject [("type", VString "error"); ("subscriptionId", VNumber 8%Z);
                ("error", VObject [("code", VString "500");
                                   ("message",
                                    VString "Internal Server Error")])]] ∧
  socket_sends (trace_of (handled (subscribe_message 8 (VString "constructor"))))
    ≠ [not_found 8%Z] ∧
  completion_of (handled (subscribe_message 9 (VString "valueOf"))) = Thrown ∧
  socket_sends (trace_of (handled (subscribe_message 9 (VString "valueOf"))))
    = [] ∧
  socket_sends (trace_of (handled (subscribe_message 4 (VString "nowhere"))))
    = [not_found 4%Z].
Proof.
  cbv zeta. repeat split; try reflexivity. vm_compute. discriminate.
Qed.

(** The not-found branch, on a run: a subscribe to the name [nowhere],
    which the catalog does not have and does not inherit. *)
Lemma subscribe_unknown_name_404_witness :
  let st := initial OPEN in
  let message := subscribe_message 4 (VString "nowhere") in
  let data := JSON_text message in
  (JSON_parse conn data = Some message ∧
   Get message "type" = Some (VString "subscribe") ∧
   Get message "offset" = Some (VNumber 0%Z) ∧
   is_number (VNumber 0%Z) = true ∧
   Get message "subscriptionId" = Some (VNumber 4%Z) ∧
   subscriptions st !! NumberToString 4%Z = None ∧
   Get message "name" = Some (VString "nowhere") ∧
   ToPropertyKey (VString "nowhere") = Some "nowhere" ∧
   observables conn "nowhere" = Prop_data VUndefined) ∧
  socket_sends (trace_of (onMessage conn data st)) =
    [VObject [("type", VString "error"); ("subscriptionId", VNumber 4%Z);
              ("error", VObject [("code", VNumber 404%Z);
                                 ("message", VString "Not found")])]] ∧
  state_of (onMessage conn data st) = st.
Proof.
  cbv zeta. split; [by repeat split|].
  destruct (subscribe_unknown_name_404 (JS:=Z_JSNumber) conn
              (JSON_text (subscribe_message 4 (VString "nowhere")))
              (subscribe_message 4 (VString "nowhere")) (num 0)
              4%Z (VString "nowhere") "nowhere" (initial OPEN))
    as (_ & Hst & _ & _ & Hopen); try reflexivity.
  split; [exact (Hopen eq_refl)|exact Hst].
Defined.

(** C4: the factory [broken] returns [null].  The client is sent one error
    envelope, and its code is the string ["500"], not the number 500 that
    the specification and the 404 branch use. *)
Theorem not_a_stream_is_reported_with_a_string_code :
  let r := onMessage conn (JSON_text (subscribe_message 3 (VString "broken")))
             (initial OPEN) in
  completion_of r = Normal tt ∧
  state_of r = initial OPEN ∧
  socket_sends (trace_of r) =
    [VObject [("type", VString "error"); ("subscriptionId", VNumber 3%Z);
              ("error", VObject [("code", VString "500");
                                 ("message",
                                  VString "Internal Server Error")])]] ∧
  socket_sends (trace_of r) ≠
    [VObject [("type", VString "error"); ("subscriptionId", VNumber 3%Z);
              ("error", VObject [("code", VNumber 500%Z);
                                 ("message",
                                  VString "Internal Server Error")])]].
Proof. cbv zeta. repeat split; [reflexivity..|]. vm_compute. discriminate. Qed.

(** C5 fails as stated: the stream of subscription 1 completes, the
    [complete] envelope goes out, and the table still holds the entry; the
    same id is then refused as sent twice. *)
Lemma completed_subscription_keeps_its_id :
  let r := notify conn 0 N_complete subscribed in
  subscriptions subscribed !! "1" = Some 0 ∧
  socket_sends (trace_of r) =
    [VObject [("type", VString "complete"); ("subscriptionId", VNumber 1%Z)]] ∧
  subscriptions (state_of r) !! "1" ≠ None ∧
  onMessage conn (JSON_text (subscribe_message 1 (VString "feed"))) (state_of r)
  = Result (Normal tt) (state_of r)
      [E_log "[10.0.0.1] subscriptionId sent twice: 1"].
Proof.
  cbv zeta. split; [reflexivity|]. split; [reflexivity|]. split.
  - vm_compute. discriminate.
  - vm_compute. reflexivity.
Qed.

(** C5, on a run: the stream of subscription 1 completes. *)
Lemma stream_end_keeps_table_entry_witness :
  let s := {| closed := false; name := VString "feed";
              observer_id := VNumber 1%Z |} in
  (subscriptions subscribed !! "1" = Some 0 ∧
   rx_heap subscribed !! 0 = Some s ∧
   closed s = false ∧
   is_terminal N_complete = true) ∧
  trace_of (notify conn 0 N_complete subscribed) =
    [E_socket_send
       (VObject [("type", VString "complete");
                 ("subscriptionId", VNumber 1%Z)])] ∧
  subscriptions (state_of (notify conn 0 N_complete subscribed)) !! "1"
  = Some 0.
Proof.
  cbv zeta. split; [by repeat split|].
  destruct (stream_end_keeps_table_entry (JS:=Z_JSNumber) conn "1" 0
              {| closed := false; name := VString "feed";
                 observer_id := num 1 |} N_complete subscribed
              eq_refl eq_refl eq_refl eq_refl
              (fun err (Herr : N_complete = N_error err) =>
                 match Herr with end))
    as (_ & _ & Htrace & _ & _ & _ & Hentry & _).
  split; [exact Htrace|exact Hentry].
Defined.

(** C7 fails as stated: on the empty table of a fresh connection [cleanup]
    still emits the [connection-closed] domain event. *)
Lemma cleanup_of_an_empty_table_emits :
  subscriptions (initial OPEN) = ∅ ∧
  events (trace_of (cleanup conn (initial OPEN))) =
    [(VObject [("type", VString "connection-closed")],
      VObject [("connectionId", VNumber 7%Z); ("sessionId", VNull);
               ("ipAddress", VString "10.0.0.1")])] ∧
  events (trace_of (cleanup conn (initial OPEN))) ≠ [].
Proof. split; [reflexivity|]. split; [reflexivity|]. vm_compute. discriminate. Qed.

(** C7, on a run: a connection closed right after it was opened. *)
Lemma cleanup_empty_table_witness :
  subscriptions (initial OPEN) = ∅ ∧
  unsubscribed (trace_of (cleanup conn (initial OPEN))) = [] ∧
  socket_sends (trace_of (cleanup conn (initial OPEN))) = [] ∧
  state_of (cleanup conn (initial OPEN)) = initial OPEN.
Proof.
  split; [reflexivity|].
  destruct (cleanup_empty_table (JS:=Z_JSNumber) conn (initial OPEN) eq_refl)
    as (_ & Hnone & Hsends & Hst & _).
  split; [exact Hnone|]. split; [exact Hsends|exact Hst].
Defined.

(** C9, on a run: a subscribe to [numbers], whose source is the array
    [1, 2, 3]. *)
Lemma subscribe_array_shaped_witness :
  let st := initial OPEN in
  let message := subscribe_message 2 (VString "numbers") in
  let data := JSON_text message in
  let numbers := [VNumber 1%Z; VNumber 2%Z; VNumber 3%Z] in
  (JSON_parse conn data = Some message ∧
   Get message "type" = Some (VString "subscribe") ∧
   Get message "offset" = Some (VNumber 0%Z) ∧
   is_number (VNumber 0%Z) = true ∧
   Get message "subscriptionId" = Some (VNumber 2%Z) ∧
   subscriptions st !! NumberToString 2%Z = None ∧
   Get message "name" = Some (VString "numbers") ∧
   ToPropertyKey (VString "numbers") = Some "numbers" ∧
   observables conn "numbers" =
     Prop_function (fun _ _ => Returned (Source (VArray numbers) []))) ∧
  socket_sends (trace_of (onMessage conn data st)) =
    [VObject [("type", VString "events"); ("batch", VArray numbers);
              ("subscriptionId", VNumber 2%Z)];
     VObject [("type", VString "complete"); ("subscriptionId", VNumber 2%Z)]].
Proof.
  cbv zeta. split; [by repeat split|].
  destruct (subscribe_array_shaped (JS:=Z_JSNumber) conn
              (JSON_text (subscribe_message 2 (VString "numbers")))
              (subscribe_message 2 (VString "numbers")) (num 0)
              2%Z (VString "numbers") "numbers"
              (fun _ _ => Returned (Source (VArray [num 1; num 2; num 3]) []))
              [num 1; num 2; num 3] [] (initial OPEN)
              eq_refl eq_refl eq_refl eq_refl eq_refl eq_refl eq_refl eq_refl
              eq_refl eq_refl)
    as (_ & _ & Hopen & _).
  exact (Hopen eq_refl).
Defined.

(** C10, on a run behind a proxy: a subscribe, a batch and a close, then a
    second subscribe, with no hello in between.  The close emits the one
    domain event of the run. *)
Lemma session_is_null_before_hello_witness :
  let prior := [frame (subscribe_message 1 (VString "feed"));
                In_notify 0 (N_next (VArray [VString "a"])); In_close] in
  let null_meta :=
    VObject [("connectionId", VNumber 7%Z); ("sessionId", VNull);
             ("ipAddress", VString "203.0.113.9")] in
  Forall (not_hello proxied) prior ∧
  sessionId (run proxied prior (initial OPEN)).1 = VNull ∧
  (In_close,
   [E_log "[203.0.113.9] Closing WebSocket"; E_unsubscribe 0;
    E_event (VObject [("type", VString "connection-closed")]) null_meta])
  ∈ (run proxied prior (initial OPEN)).2 ∧
  (∀ i tr ev meta,
     (i, tr) ∈ (run proxied prior (initial OPEN)).2 →
     E_event ev meta ∈ tr →
     meta = null_meta ∧ Get meta "sessionId" = Some VNull) ∧
  calls (trace_of (onMessage proxied
                     (JSON_text (subscribe_message 2 (VString "numbers")))
                     (run proxied prior (initial OPEN)).1))
  = [("numbers", VNumber 0%Z, VNull)].
Proof.
  cbv zeta.
  assert (Forall (not_hello proxied)
            [frame (subscribe_message 1 (VString "feed"));
             In_notify 0 (N_next (VArray [VString "a"])); In_close]) as Hno.
  { repeat constructor; intros data [= <-] (message & sid & Hp & Ht & _);
      vm_compute in Hp; injection Hp as <-; discriminate. }
  split; [exact Hno|].
  destruct (session_is_null_before_hello (JS:=Z_JSNumber) proxied OPEN _ Hno)
    as (Hnull & Hmeta & Hsub & _).
  split; [exact Hnull|].
  split; [apply list_elem_of_further, list_elem_of_further, list_elem_of_here|].
  split; [exact Hmeta|].
  apply (Hsub (JSON_text (subscribe_message 2 (VString "numbers")))
              (subscribe_message 2 (VString "numbers")) (num 0)
              2%Z (VString "numbers") "numbers"
              (fun _ _ => Returned (Source (VArray [num 1; num 2; num 3]) []))
              eq_refl eq_refl eq_refl eq_refl eq_refl eq_refl eq_refl eq_refl
              eq_refl).
Defined.

End Runs.

(** ** More runs of the connection *)

Section MoreRuns.
Import Scenario.

(** X1, on a run behind a proxy: the hello of session [s1] on a fresh
    connection. *)
Lemma hello_opens_the_session_witness :
  let data := JSON_text hello_message in
  (JSON_parse proxied data = Some hello_message ∧
   Get hello_message "type" = Some (VString "hello") ∧
   Get hello_message "sessionId" = Some (VString "s1")) ∧
  sessionId (state_of (onMessage proxied data (initial OPEN))) = VString "s1" ∧
  events (trace_of (onMessage proxied data (initial OPEN))) =
    [(VObject [("type", VString "connection-open")],
      VObject [("connectionId", VNumber 7%Z); ("sessionId", VString "s1");
               ("ipAddress", VString "203.0.113.9")])].
Proof.
  cbv zeta. split; [by repeat split|].
  destruct (hello_opens_the_session (JS:=Z_JSNumber) proxied
              (JSON_text hello_message) hello_message "s1" (initial OPEN)
              eq_refl eq_refl eq_refl) as (_ & Hsession & Hevents & _).
  split; [exact Hsession|exact Hevents].
Defined.

Lemma scenario_frames_are_not_hellos :
  Forall (not_hello proxied)
    [frame (subscribe_message 1 (VString "feed")); In_close].
Proof.
  repeat constructor; intros data [= <-] (message & sid & Hp & Ht & _);
    vm_compute in Hp; injection Hp as <-; discriminate.
Defined.

(** X3, on a run behind a proxy: a hello, a subscribe, and the close. *)
Lemma hello_session_stays_in_force_witness :
  let later := [frame (subscribe_message 1 (VString "feed")); In_close] in
  let opened := state_of (onMessage proxied (JSON_text hello_message)
                            (initial OPEN)) in
  let meta_s1 :=
    VObject [("connectionId", VNumber 7%Z); ("sessionId", VString "s1");
             ("ipAddress", VString "203.0.113.9")] in
  Forall (not_hello proxied) later ∧
  sessionId (run proxied later opened).1 = VString "s1" ∧
  events (effects_of (run proxied later opened).2) =
    [(VObject [("type", VString "connection-closed")], meta_s1)] ∧
  (∀ ev meta,
     E_event ev meta ∈ effects_of (run proxied later opened).2 →
     meta = meta_s1 ∧ Get meta "sessionId" = Some (VString "s1")) ∧
  events (trace_of (cleanup proxied (run proxied later opened).1)) =
    [(VObject [("type", VString "connection-closed")], meta_s1)].
Proof.
  cbv zeta. split; [exact scenario_frames_are_not_hellos|].
  destruct (hello_session_stays_in_force (JS:=Z_JSNumber) proxied
              (JSON_text hello_message) hello_message "s1"
              [frame (subscribe_message 1 (VString "feed")); In_close]
              (initial OPEN) eq_refl eq_refl eq_refl
              scenario_frames_are_not_hellos)
    as (Hsession & Hmeta & Hclosed & _).
  split; [exact Hsession|]. split; [reflexivity|].
  split; [exact Hmeta|exact Hclosed].
Defined.

(** X4, on a run: subscription 1 is opened and then unsubscribed. *)
Lemma unsubscribe_cancels_and_frees_the_id_witness :
  let prior := [frame (subscribe_message 1 (VString "feed"))] in
  let st := (run conn prior (initial OPEN)).1 in
  let message := unsubscribe_message (num 1) in
  (JSON_parse conn (JSON_text message) = Some message ∧
   Get message "type" = Some (VString "unsubscribe") ∧
   Get message "subscriptionId" = Some (num 1) ∧
   subscriptions st !! "1" = Some 0) ∧
  unsubscribed (trace_of (onMessage conn (JSON_text message) st)) = [0] ∧
  subscriptions (state_of (onMessage conn (JSON_text message) st)) !! "1"
  = None.
Proof.
  cbv zeta. split; [by repeat split|].
  destruct (unsubscribe_cancels_and_frees_the_id (JS:=Z_JSNumber) conn OPEN
              [frame (subscribe_message 1 (VString "feed"))] []
              (JSON_text (unsubscribe_message (num 1)))
              (unsubscribe_message (num 1)) 1%Z 0
              eq_refl eq_refl eq_refl eq_refl)
    as (_ & Hcancel & _ & _ & _ & Hfree & _).
  split; [exact Hcancel|exact Hfree].
Defined.


Lemma scenario_range_prints :
  isArray (JS:=Z_JSNumber) VUndefined = false →
  Forall prints
    [N_next (VArray [num 1]); N_next (VArray [num 2]); N_complete].
Proof. intros _. by repeat constructor. Defined.

(** X6, on a run: subscribe 10 to [range], which has completed by the time
    the handler returns, then unsubscribe 10. *)
Lemma subscribe_then_unsubscribe_restores_the_table_witness :
  let st := initial OPEN in
  let message := subscribe_message 10 (VString "range") in
  let message' := unsubscribe_message (num 10) in
  (JSON_parse conn (JSON_text message) = Some message ∧
   JSON_parse conn (JSON_text message') = Some message' ∧
   subscriptions st !! NumberToString 10%Z = None) ∧
  unsubscribed
    (trace_of (onMessage conn (JSON_text message')
                 (state_of (onMessage conn (JSON_text message) st)))) = [0] ∧
  subscriptions
    (state_of (onMessage conn (JSON_text message')
                 (state_of (onMessage conn (JSON_text message) st))))
  = subscriptions st.
Proof.
  cbv zeta. split; [by repeat split|].
  destruct (subscribe_then_unsubscribe_restores_the_table (JS:=Z_JSNumber) conn
              (JSON_text (subscribe_message 10 (VString "range")))
              (subscribe_message 10 (VString "range")) (num 0) 10%Z
              (VString "range") "range"
              (fun _ _ =>
                 Returned (Source VUndefined
                             [N_next (VArray [num 1]);
                              N_next (VArray [num 2]); N_complete]))
              VUndefined
              [N_next (VArray [num 1]); N_next (VArray [num 2]);
               N_complete]
              (JSON_text (unsubscribe_message (num 10)))
              (unsubscribe_message (num 10)) (initial OPEN)
              eq_refl eq_refl eq_refl eq_refl eq_refl eq_refl eq_refl eq_refl
              eq_refl eq_refl scenario_range_prints eq_refl eq_refl eq_refl)
    as (_ & Hcancel & _ & Htable & _).
  split; [exact Hcancel|exact Htable].
Defined.

(** X8, on a run: a subscribe to an unknown name while the socket is
    closing. *)
Lemma nothing_is_written_unless_open_witness :
  readyState (initial CLOSING) ≠ OPEN ∧
  socket_sends
    (trace_of (step conn (frame (subscribe_message 4 (VString "nowhere")))
                 (initial CLOSING))) = [].
Proof.
  assert (readyState (JS:=Z_JSNumber) (initial CLOSING) ≠ OPEN) as Hrs
    by discriminate.
  split; [exact Hrs|].
  exact (nothing_is_written_unless_open (JS:=Z_JSNumber) conn _ _ Hrs).
Defined.

Lemma scenario_404_is_written :
  E_socket_send (error_envelope (num 4) (num 404) "Not found")
  ∈ trace_of (step conn (frame (subscribe_message 4 (VString "nowhere")))
                (initial OPEN)).
Proof. apply list_elem_of_further, list_elem_of_here. Defined.

(** X9, on a run: the 404 reply is an envelope. *)
Lemma every_frame_is_an_envelope_witness :
  E_socket_send (error_envelope (num 4) (num 404) "Not found")
  ∈ trace_of (step conn (frame (subscribe_message 4 (VString "nowhere")))
                (initial OPEN)) ∧
  envelope (error_envelope (num 4) (num 404) "Not found").
Proof.
  split; [exact scenario_404_is_written|].
  exact (proj1 (every_frame_is_an_envelope (JS:=Z_JSNumber) conn _ _ _
                  scenario_404_is_written)).
Defined.

(** X10, on a run behind a proxy: the hello of session [s1]; the log line
    and the event both carry the forwarded address, not the socket's. *)
Lemma every_log_line_names_the_peer_witness :
  let r := step proxied (frame hello_message) (initial OPEN) in
  x_forwarded_for proxied = Some "203.0.113.9" ∧
  remoteAddress proxied = "10.0.0.1" ∧
  trace_of r =
    [E_event (VObject [("type", VString "connection-open")])
       (VObject [("connectionId", VNumber 7%Z); ("sessionId", VString "s1");
                 ("ipAddress", VString "203.0.113.9")]);
     E_log "[203.0.113.9] open session s1"] ∧
  (∀ line, E_log line ∈ trace_of r →
           ∃ message, line = "[203.0.113.9] " +:+ message) ∧
  (∀ ev meta, E_event ev meta ∈ trace_of r →
              Get meta "ipAddress" = Some (VString "203.0.113.9")).
Proof.
  cbv zeta. split; [reflexivity|]. split; [reflexivity|].
  split; [reflexivity|].
  exact (every_log_line_names_the_peer (JS:=Z_JSNumber) proxied
           (frame hello_message) (initial OPEN)).
Defined.

(** X12, on a run: a subscribe emits no domain event. *)
Lemma only_hello_and_close_emit_events_witness :
  let i := frame (subscribe_message 1 (VString "feed")) in
  (not_hello conn i ∧ i ≠ In_close) ∧
  events (trace_of (step conn i (initial OPEN))) = [].
Proof.
  cbv zeta.
  assert (not_hello conn (frame (subscribe_message 1 (VString "feed"))))
    as Hno.
  { intros data [= <-] (message & sid & Hp & Ht & _).
    vm_compute in Hp. injection Hp as <-. discriminate. }
  assert (frame (subscribe_message 1 (VString "feed")) ≠ In_close) as Hclose
    by discriminate.
  split; [by split|].
  exact (only_hello_and_close_emit_events (JS:=Z_JSNumber) conn _ _ Hno Hclose).
Defined.

(** X13, on a run: two batches and the completion of subscription 1. *)
Lemma batches_are_sent_in_order_witness :
  let s := {| closed := false; name := VString "feed";
              observer_id := num 1 |} in
  let ins := [In_notify 0 (N_next (VArray [VString "a"]));
              In_notify 0 (N_next (VArray [VString "b"]));
              In_notify 0 N_complete] in
  (rx_heap subscribed !! 0 = Some s ∧ closed s = false ∧
   readyState subscribed = OPEN) ∧
  socket_sends (effects_of (run conn ins subscribed).2) =
    [VObject [("type", VString "events"); ("batch", VArray [VString "a"]);
              ("subscriptionId", num 1)];
     VObject [("type", VString "events"); ("batch", VArray [VString "b"]);
              ("subscriptionId", num 1)];
     VObject [("type", VString "complete"); ("subscriptionId", num 1)]].
Proof.
  cbv zeta. split; [by repeat split|].
  destruct (batches_are_sent_in_order (JS:=Z_JSNumber) conn 0
              {| closed := false; name := VString "feed";
                 observer_id := num 1 |}
              [VArray [VString "a"]; VArray [VString "b"]] subscribed
              eq_refl eq_refl) as (_ & Hopen & _).
  exact (Hopen eq_refl).
Defined.

(** X14, on a run: the subscribe to [__proto__] throws on a connection that
    holds subscription 1. *)
Lemma an_exception_leaves_the_state_untouched_witness :
  let data := JSON_text (subscribe_message 5 (VString "__proto__")) in
  completion_of (onMessage conn data subscribed) = Thrown ∧
  state_of (onMessage conn data subscribed) = subscribed.
Proof.
  cbv zeta.
  assert (completion_of
            (onMessage conn
               (JSON_text (subscribe_message 5 (VString "__proto__")))
               subscribed) = Thrown) as Hthrown by reflexivity.
  split; [exact Hthrown|].
  exact (an_exception_leaves_the_state_untouched (JS:=Z_JSNumber) conn _ _
           Hthrown).
Defined.

End MoreRuns.
